(** * Hangman engine (hangman_single.py): shallow embedding and properties

    The rules engine of the game ([_normalize_answer], [HangmanState],
    [HangmanEngine]) is embedded as executable Rocq functions.

    Python values are modelled as follows.
    - [str] is [string]; the embedding of [str.upper] and [str.strip] is
      exact on ASCII text (code points below 128), which covers every pool
      of the program and of its tests.  Python's case mapping of non-ASCII
      code points is not modelled.  The same holds for [str.lower] and
      [str.isalpha], which the front ends use.
    - iterating over a [str] yields one-character strings ([chars]).
    - [Set[str]] is [gset string]; [int] is [Z].
    - an exception is a value of [exn]; a method of the engine returns its
      outcome together with the engine after the call.
    - [random.Random] is an infinite supply of raw draws. *)

From Stdlib Require Import ZArith Ascii.
From stdpp Require Import base decidable list strings gmap.

Local Open Scope Z_scope.

(** ** Python string primitives *)

Module Py.

Definition len (s : string) : Z := Z.of_nat (Strings.String.length s).

(** [for ch in s]: the characters of [s], each a string of length one. *)
Fixpoint chars (s : string) : list string :=
  match s with
  | EmptyString => []
  | String c s' => String c "" :: chars s'
  end.

(** [sep.join(parts)] *)
Fixpoint join (sep : string) (parts : list string) : string :=
  match parts with
  | [] => ""
  | [p] => p
  | p :: ps => p +:+ sep +:+ join sep ps
  end.

Definition is_lower (c : ascii) : bool :=
  (97 <=? nat_of_ascii c)%nat && (nat_of_ascii c <=? 122)%nat.

Definition upper_char (c : ascii) : ascii :=
  if is_lower c then ascii_of_nat (nat_of_ascii c - 32) else c.

(** [s.upper()], exact when [s] is ASCII text. *)
Fixpoint upper (s : string) : string :=
  match s with
  | EmptyString => ""
  | String c s' => String (upper_char c) (upper s')
  end.

(** [str.isspace] on ASCII: TAB, LF, VT, FF, CR, FS, GS, RS, US, space.
    Python counts some code points above 127 as white space too. *)
Definition isspace (c : ascii) : bool :=
  let n := nat_of_ascii c in
  ((9 <=? n)%nat && (n <=? 13)%nat) || ((28 <=? n)%nat && (n <=? 32)%nat).

Fixpoint lstrip (s : string) : string :=
  match s with
  | EmptyString => ""
  | String c s' => if isspace c then lstrip s' else s
  end.

Fixpoint rstrip (s : string) : string :=
  match s with
  | EmptyString => ""
  | String c s' =>
      match rstrip s' with
      | EmptyString => if isspace c then "" else String c ""
      | r => String c r
      end
  end.

(** [s.strip()], exact when [s] is ASCII text. *)
Definition strip (s : string) : string := rstrip (lstrip s).

(** [sub in s] on strings: substring test. *)
Fixpoint contains (sub s : string) : bool :=
  Strings.String.prefix sub s ||
  match s with
  | EmptyString => false
  | String _ s' => contains sub s'
  end.

(** [bool(s)]: a string is truthy when it is not empty. *)
Definition truthy (s : string) : bool :=
  match s with EmptyString => false | _ => true end.

(** [string.ascii_uppercase] *)
Definition ascii_uppercase : string := "ABCDEFGHIJKLMNOPQRSTUVWXYZ".

Definition is_upper (c : ascii) : bool :=
  (65 <=? nat_of_ascii c)%nat && (nat_of_ascii c <=? 90)%nat.

Definition lower_char (c : ascii) : ascii :=
  if is_upper c then ascii_of_nat (nat_of_ascii c + 32) else c.

(** [s.lower()], exact when [s] is ASCII text. *)
Fixpoint lower (s : string) : string :=
  match s with
  | EmptyString => ""
  | String c s' => String (lower_char c) (lower s')
  end.

Fixpoint all_alpha (s : string) : bool :=
  match s with
  | EmptyString => true
  | String c s' => (is_upper c || is_lower c) && all_alpha s'
  end.

(** [s.isalpha()], exact when [s] is ASCII text: not empty, and letters
    only.  Python counts alphabetic code points above 127 as well. *)
Definition isalpha (s : string) : bool := truthy s && all_alpha s.

(** [s[:1]] *)
Definition first1 (s : string) : string :=
  match s with
  | EmptyString => ""
  | String c _ => String c ""
  end.

(** [a or b] on strings. *)
Definition or_else (a b : string) : string := if truthy a then a else b.

(** [s.isascii()]: every code point is below 128. *)
Fixpoint isascii (s : string) : bool :=
  match s with
  | EmptyString => true
  | String c s' => (nat_of_ascii c <? 128)%nat && isascii s'
  end.

End Py.

(** ** The state snapshot *)

Definition MASK_CHAR : string := "_".

(** Uppercase and keep only A-Z and spaces. *)
Definition _normalize_answer (text : string) : string :=
  let text := Py.upper text in
  Py.strip
    (Py.join ""
       (filter (λ ch, Py.contains ch (Py.ascii_uppercase +:+ " ") = true)
               (Py.chars text))).

Record HangmanState := mkState {
  answer : string;
  lives : Z;
  guessed : gset string
}.

(** The rendering of one position of the answer. *)
Definition shown (st : HangmanState) (ch : string) : bool :=
  bool_decide (ch = " ") || bool_decide (ch ∈ guessed st).

Definition masked (st : HangmanState) : string :=
  Py.join " "
    (map (λ ch, if shown st ch then ch else MASK_CHAR) (Py.chars (answer st))).

Definition is_won (st : HangmanState) : bool :=
  forallb (shown st) (Py.chars (answer st)).

Definition is_lost (st : HangmanState) : bool :=
  (lives st <=? 0) && negb (is_won st).

(** ** Exceptions and the random source *)

Inductive exn :=
| ValueError (msg : string)
| RuntimeError (msg : string)
| IndexError (msg : string).

Inductive result (A : Type) :=
| Return (a : A)
| Raise (e : exn).
Arguments Return {A} a.
Arguments Raise {A} e.

(** [random.Random]: the raw draws still to come. *)
Definition Random := nat → nat.

(** [_randbelow(n)] uses up a raw draw and yields an index below [n]. *)
Definition _randbelow (r : Random) (n : nat) : nat * Random :=
  ((r 0%nat `mod` n)%nat, λ i, r (S i)).

(** [rng.choice(seq)] *)
Definition choice (r : Random) (seq : list string) : result (string * Random) :=
  match seq with
  | [] => Raise (IndexError "Cannot choose from an empty sequence")
  | x :: _ =>
      let '(i, r') := _randbelow r (length seq) in
      Return (nth i seq x, r')
  end.

(** ** The engine *)

Record HangmanEngine := mkEngine {
  _rng : Random;
  _words : list string;
  _phrases : list string;
  _default_lives : Z;
  _state : option HangmanState
}.

(** The comprehension [[w.strip() for w in pool if w and w.strip()]]. *)
Definition clean_pool (pool : list string) : list string :=
  map Py.strip
    (filter (λ w, Py.truthy w && Py.truthy (Py.strip w) = true) pool).

(** [HangmanEngine.__init__]; a caller that passes no generator gets a
    fresh one, which is some [Random] as well. *)
Definition init (words phrases : list string) (lives : Z) (rng : Random)
  : result HangmanEngine :=
  let words' := clean_pool words in
  let phrases' := clean_pool phrases in
  match words' with
  | [] => Raise (ValueError "words must not be empty")
  | _ =>
      match phrases' with
      | [] => Raise (ValueError "phrases must not be empty")
      | _ => Return (mkEngine rng words' phrases' lives None)
      end
  end.

(** The [state] property. *)
Definition state (e : HangmanEngine) : result HangmanState :=
  match _state e with
  | None => Raise (RuntimeError "game not started")
  | Some st => Return st
  end.

Definition difficulties : gset string := {["basic"; "intermediate"]}.

Definition start (e : HangmanEngine) (difficulty : string)
  : result HangmanState * HangmanEngine :=
  if negb (bool_decide (difficulty ∈ difficulties)) then
    (Raise (ValueError "difficulty must be 'basic' or 'intermediate'"), e)
  else
    let pool :=
      if bool_decide (difficulty = "basic") then _words e else _phrases e in
    match choice (_rng e) pool with
    | Raise x => (Raise x, e)
    | Return (raw, r') =>
        let e' :=
          mkEngine r' (_words e) (_phrases e) (_default_lives e)
            (Some (mkState (_normalize_answer raw) (_default_lives e) ∅)) in
        (state e', e')
    end.

Definition guess (e : HangmanEngine) (letter : string)
  : result HangmanState * HangmanEngine :=
  match _state e with
  | None => (Raise (RuntimeError "game not started"), e)
  | Some st =>
      if is_won st || is_lost st then (Return st, e)
      else
        let letter := Py.upper (Py.strip letter) in
        if negb (Py.len letter =? 1)
           || negb (Py.contains letter Py.ascii_uppercase)
        then (Return st, e)
        else if bool_decide (letter ∈ guessed st) then (Return st, e)
        else
          let guessed' := guessed st ∪ {[letter]} in
          let new_lives :=
            lives st - (if Py.contains letter (answer st) then 0 else 1) in
          let st' := mkState (answer st) new_lives guessed' in
          (Return st',
           mkEngine (_rng e) (_words e) (_phrases e) (_default_lives e)
             (Some st'))
  end.

Definition timeout (e : HangmanEngine)
  : result HangmanState * HangmanEngine :=
  match _state e with
  | None => (Raise (RuntimeError "game not started"), e)
  | Some st =>
      if is_won st || is_lost st then (Return st, e)
      else
        let new_lives := Z.max (lives st - 1) 0 in
        let st' := mkState (answer st) new_lives (guessed st) in
        (Return st',
         mkEngine (_rng e) (_words e) (_phrases e) (_default_lives e)
           (Some st'))
  end.

(** ** Sequences of calls *)

Inductive call :=
| Start (difficulty : string)
| Guess (letter : string)
| Timeout.

(** One call on the engine; a call that raises leaves the engine as it
    was. *)
Definition perform (e : HangmanEngine) (c : call)
  : result HangmanState * HangmanEngine :=
  match c with
  | Start d => start e d
  | Guess l => guess e l
  | Timeout => timeout e
  end.

(** The engine after a sequence of calls, and what each call returned. *)
Fixpoint run (e : HangmanEngine) (cs : list call)
  : list (result HangmanState) * HangmanEngine :=
  match cs with
  | [] => ([], e)
  | c :: cs' =>
      let '(r, e1) := perform e c in
      let '(rs, e2) := run e1 cs' in
      (r :: rs, e2)
  end.

(** The engines a program can hold: a constructed engine after any
    sequence of calls. *)
Inductive reachable (e0 : HangmanEngine) : HangmanEngine → Prop :=
| reach_init : reachable e0 e0
| reach_call e c : reachable e0 e → reachable e0 (perform e c).2.

Definition first_rng : Random := λ _, 0%nat.

Definition scenario (words phrases : list string) (n : Z) (cs : list call)
  : option (list (result HangmanState) * HangmanEngine) :=
  match init words phrases n first_rng with
  | Return e => Some (run e cs)
  | Raise _ => None
  end.

(** What a front end reads off a returned state: lives, masked view, won
    and lost. *)
Definition observe (r : result HangmanState)
  : option (Z * string * bool * bool) :=
  match r with
  | Return st => Some (lives st, masked st, is_won st, is_lost st)
  | Raise _ => None
  end.

Definition play (words phrases : list string) (n : Z) (cs : list call)
  : list (option (Z * string * bool * bool)) :=
  match scenario words phrases n cs with
  | Some (rs, _) => map observe rs
  | None => []
  end.

(** ** The word lists and the front ends

    The GUI and the CLI are embedded as far as the engine sees them: what
    they pass to the engine and when.  Widgets, printing and the timer
    threads are left out; a deadline that passes is an input of its
    own. *)

Definition WORDS : list string :=
  ["PYTHON"; "VARIABLE"; "FUNCTION"; "ALGORITHM"; "DEBUG"; "COMPILE";
   "PACKAGE"; "LIBRARY"; "INTEGER"; "BOOLEAN"; "EXCEPTION"; "ITERABLE";
   "DECORATOR"; "GENERATOR"; "ASYNC"; "MODULE"; "PYTEST"; "LINTER";
   "SOFTWARE"; "HARDWARE"; "NETWORK"; "SECURITY"; "DATABASE"; "MIGRATION";
   "TESTING"; "QUALITY"; "VERSION"; "CONTROL"; "BRANCH"; "MERGE";
   "RELEASE"; "SPRINT"; "BACKLOG"; "DOCUMENT"; "REQUIREMENT"; "DESIGN";
   "PATTERN"; "FACTORY"; "ADAPTER"; "STRATEGY"; "OBSERVER"; "BUILDER";
   "FACADE"; "SINGLETON"; "INHERITANCE"; "ENCAPSULATION"; "POLYMORPHISM";
   "COMPOSITION"; "ABSTRACTION"].

Definition PHRASES : list string :=
  ["UNIT TESTS"; "SOFTWARE QUALITY"; "HANGMAN GAME"; "DATA MIGRATION";
   "CODE REVIEW"; "CONTINUOUS INTEGRATION"; "VERSION CONTROL";
   "CLEAN CODE"; "TEST DRIVEN DEVELOPMENT"; "GRAPHICAL USER INTERFACE";
   "PROJECT MANAGEMENT"; "BUG TRIAGE"; "ERROR HANDLING"; "STATIC ANALYSIS";
   "TEAM COLLABORATION"; "STATE MACHINE"; "EVENT LOOP"; "PUBLIC INTERFACE";
   "SEPARATION OF CONCERNS"].

(** [_entry_validator] of the GUI: what the entry field lets through. *)
Definition _entry_validator (text_after : string) : bool :=
  if 1 <? Py.len text_after then false
  else if bool_decide (text_after = "") then true
  else Py.isalpha text_after.

(** [submit_guess] of the GUI: the text of the entry field is trimmed, cut
    to its first character, upper-cased and guessed. *)
Definition submit_guess (e : HangmanEngine) (entry_text : string)
  : result HangmanState * HangmanEngine :=
  let ch := Py.upper (Py.first1 (Py.strip entry_text)) in
  guess e ch.

(** The difficulty [run_cli] starts with, from the line it reads. *)
Definition cli_difficulty (line : string) : string :=
  let diff_raw := Py.or_else (Py.lower (Py.strip line)) "basic" in
  if negb (bool_decide (diff_raw ∈ difficulties)) then "basic" else diff_raw.

(** One pass of the loop of [run_cli] on a round that is not decided.
    [typed] is the line read before the deadline, or [None] when the
    deadline passed; [timed_input] hands the line over stripped. *)
Definition cli_turn (e : HangmanEngine) (typed : option string)
  : result HangmanState * HangmanEngine :=
  match Py.strip <$> typed with
  | None => timeout e
  | Some guess_raw =>
      let guess_raw := Py.strip guess_raw in
      match guess_raw with
      | EmptyString => (state e, e)
      | String c _ =>
          if negb (Py.isalpha (String c "")) then (state e, e)
          else guess e (String c "")
      end
  end.

(** How a session of the CLI stands when its input is used up. *)
Inductive cli_end :=
| CliWon
| CliLost
| CliWaiting
| CliRaised (x : exn).

(** The loop of [run_cli] over the lines typed, one per deadline. *)
Fixpoint cli_loop (e : HangmanEngine) (typed : list (option string))
  {struct typed} : cli_end * HangmanEngine :=
  match state e with
  | Raise x => (CliRaised x, e)
  | Return st =>
      if is_won st then (CliWon, e)
      else if is_lost st then (CliLost, e)
      else
        match typed with
        | [] => (CliWaiting, e)
        | t :: ts =>
            match cli_turn e t with
            | (Raise x, e') => (CliRaised x, e')
            | (Return _, e') => cli_loop e' ts
            end
        end
  end.

(** [run_cli]: the engine on the shipped lists with six lives, the
    difficulty from the first line, then the loop. *)
Definition run_cli (rng : Random) (line : string) (typed : list (option string))
  : option (cli_end * HangmanEngine) :=
  match init WORDS PHRASES 6 rng with
  | Raise _ => None
  | Return engine =>
      match start engine (cli_difficulty line) with
      | (Raise x, e) => Some (CliRaised x, e)
      | (Return _, e) => Some (cli_loop e typed)
      end
  end.

(** ** Notions used by the statements *)

(** An uppercase letter A-Z. *)
Definition is_AZ (c : ascii) : bool :=
  (65 <=? nat_of_ascii c)%nat && (nat_of_ascii c <=? 90)%nat.

(** A string that is exactly one letter A-Z. *)
Definition one_letter (s : string) : bool :=
  match s with
  | String c EmptyString => is_AZ c
  | _ => false
  end.

(** A round that is decided. *)
Definition terminal (st : HangmanState) : bool := is_won st || is_lost st.

(** What a position of the answer shows in the masked view. *)
Definition render (st : HangmanState) (ch : string) : string :=
  if shown st ch then ch else MASK_CHAR.

(** A call that plays the current round. *)
Definition is_play (c : call) : Prop :=
  match c with Start _ => False | _ => True end.

(** A call that starts no round: anything but a [start] with a valid
    difficulty. *)
Definition starts_nothing (c : call) : Prop :=
  match c with Start d => d ∉ difficulties | _ => True end.

(** A pool entry that the constructor discards. *)
Definition blank (w : string) : Prop := Py.strip w = "".

(** An ASCII letter, of either case. *)
Definition is_letter (c : ascii) : bool := is_AZ c || Py.is_lower c.

(** A string with one of the characters A-Z in it. *)
Fixpoint has_AZ (s : string) : bool :=
  match s with
  | EmptyString => false
  | String c s' => is_AZ c || has_AZ s'
  end.

(** Strings of length one. *)
Definition single (p : string) : Prop := ∃ c, p = String c "".

(** The engine with its round replaced. *)
Definition with_state (e : HangmanEngine) (st : HangmanState) : HangmanEngine :=
  mkEngine (_rng e) (_words e) (_phrases e) (_default_lives e) (Some st).

(** A character of a normalised answer: a space or a letter A-Z. *)
Definition answer_char (ch : string) : Prop := ch = " " ∨ one_letter ch = true.

(** A normalised answer: letters A-Z and spaces, with no space at either
    end. *)
Definition normal_form (s : string) : Prop :=
  Forall answer_char (Py.chars s)
  ∧ head (Py.chars s) ≠ Some " "
  ∧ last (Py.chars s) ≠ Some " ".

(** The twenty-six letters a guess can record. *)
Definition alphabet : gset string := list_to_set (Py.chars Py.ascii_uppercase).

(** The guessed letters that are not in the answer. *)
Definition wrong (st : HangmanState) : gset string :=
  filter (λ l, l ∉ Py.chars (answer st)) (guessed st).

(** A call that is a guess. *)
Definition is_guess (c : call) : Prop :=
  match c with Guess _ => True | _ => False end.

(** ** Facts about the string primitives *)

Section PyFacts.

Lemma append_nil (t : string) : "" +:+ t = t.
Proof. reflexivity. Qed.

Lemma append_cons c (s t : string) : String c s +:+ t = String c (s +:+ t).
Proof. reflexivity. Qed.

Lemma append_empty_r (s : string) : s +:+ "" = s.
Proof.
  induction s as [|c s IH]; [done|]. by rewrite append_cons, IH.
Qed.

Lemma chars_append (s t : string) :
  Py.chars (s +:+ t) = Py.chars s ++ Py.chars t.
Proof.
  induction s as [|c s IH]; [done|].
  rewrite append_cons. simpl. by rewrite IH.
Qed.

Lemma chars_length (s : string) :
  length (Py.chars s) = Strings.String.length s.
Proof. induction s as [|c s IH]; simpl; [done | by rewrite IH]. Qed.

Lemma chars_single (s ch : string) :
  ch ∈ Py.chars s → ∃ c, ch = String c "".
Proof.
  induction s as [|c s IH]; simpl; intros H.
  - by apply elem_of_nil in H.
  - apply elem_of_cons in H as [-> | H]; eauto.
Qed.

Lemma prefix_single (c : ascii) (s : string) :
  Strings.String.prefix (String c "") s = true ↔ ∃ t, s = String c t.
Proof.
  destruct s as [|d t]; simpl.
  - split; [done | by intros [? ?]].
  - destruct (ascii_dec c d) as [-> | Hne].
    + split; [eauto | intros _; by destruct t].
    + split; [done | intros [? [= ? ?]]; done].
Qed.

(** On a one-character string, [in] is membership among the characters. *)
Lemma contains_single (c : ascii) (s : string) :
  Py.contains (String c "") s = true ↔ String c "" ∈ Py.chars s.
Proof.
  induction s as [|d t IH].
  - simpl. split; [done | by intros ?%elem_of_nil].
  - change (Py.contains (String c "") (String d t))
      with (Strings.String.prefix (String c "") (String d t)
            || Py.contains (String c "") t).
    rewrite orb_true_iff, IH, prefix_single. simpl.
    rewrite elem_of_cons. split.
    + intros [[u [= -> ->]] | H]; auto.
    + intros [[= ->] | H]; eauto.
Qed.

Lemma contains_uppercase (c : ascii) :
  Py.contains (String c "") Py.ascii_uppercase = is_AZ c.
Proof. by destruct c as [[] [] [] [] [] [] [] []]. Qed.

Lemma contains_keep (c : ascii) :
  Py.contains (String c "") (Py.ascii_uppercase +:+ " ")
  = is_AZ c || bool_decide (c = " "%char).
Proof. by destruct c as [[] [] [] [] [] [] [] []]. Qed.

(** The test of [guess] on its normalised input. *)
Lemma letter_test (s : string) :
  negb (Py.len s =? 1) || negb (Py.contains s Py.ascii_uppercase)
  = negb (one_letter s).
Proof.
  destruct s as [|c [|d t]].
  - done.
  - rewrite contains_uppercase. done.
  - unfold Py.len. simpl Strings.String.length.
    replace (Z.of_nat (S (S (Strings.String.length t))) =? 1) with false; [done|].
    symmetry. apply Z.eqb_neq. lia.
Qed.

Lemma join_empty_cons (p : string) (ps : list string) :
  Py.join "" (p :: ps) = p +:+ Py.join "" ps.
Proof. destruct ps; simpl; [by rewrite append_empty_r | done]. Qed.

Lemma lstrip_head (s : string) c t :
  Py.lstrip s = String c t → Py.isspace c = false.
Proof.
  induction s as [|d u IH]; simpl; [done|].
  destruct (Py.isspace d) eqn:E; [done|]. by intros [= <- <-].
Qed.

Lemma rstrip_head c t :
  Py.rstrip (String c t) = ""
  ∨ ∃ r, Py.rstrip (String c t) = String c r.
Proof.
  simpl. destruct (Py.rstrip t); [destruct (Py.isspace c)|]; eauto.
Qed.

Lemma rstrip_empty_head c t :
  Py.rstrip (String c t) = "" → Py.isspace c = true.
Proof.
  simpl. destruct (Py.rstrip t); [destruct (Py.isspace c)|]; done.
Qed.

(** A stripped string does not start with white space. *)
Lemma strip_head (s : string) c t :
  Py.strip s = String c t → Py.isspace c = false.
Proof.
  unfold Py.strip. destruct (Py.lstrip s) as [|d u] eqn:E; [done|].
  apply lstrip_head in E.
  destruct (rstrip_head d u) as [-> | [r ->]]; [done|].
  by intros [= <- <-].
Qed.

End PyFacts.

(** ** Facts about the state snapshot *)

Section StateFacts.

Variable st : HangmanState.

Lemma shown_iff (ch : string) :
  shown st ch = true ↔ ch = " " ∨ ch ∈ guessed st.
Proof.
  unfold shown. rewrite orb_true_iff, !bool_decide_eq_true. done.
Qed.

Lemma is_won_iff :
  is_won st = true
  ↔ ∀ ch, ch ∈ Py.chars (answer st) → ch ≠ " " → ch ∈ guessed st.
Proof.
  unfold is_won. rewrite forallb_forall. split.
  - intros H ch Hin Hne. apply list_elem_of_In, H, shown_iff in Hin.
    by destruct Hin.
  - intros H ch Hin%list_elem_of_In. apply shown_iff.
    destruct (decide (ch = " ")); auto.
Qed.

Lemma is_lost_iff : is_lost st = true ↔ lives st ≤ 0 ∧ is_won st = false.
Proof.
  unfold is_lost. rewrite andb_true_iff, Z.leb_le, negb_true_iff. done.
Qed.

(** A round that is not decided has a life left. *)
Lemma live_round : terminal st = false → 0 < lives st.
Proof.
  unfold terminal, is_lost. intros H.
  apply orb_false_iff in H as [-> H]. simpl in H.
  rewrite andb_true_r in H. apply Z.leb_gt in H. lia.
Qed.

End StateFacts.

(** ** Facts about the calls *)

Section CallFacts.

Variables (e : HangmanEngine) (st : HangmanState).
Hypothesis Hst : _state e = Some st.

Lemma guess_terminal (letter : string) :
  terminal st = true → guess e letter = (Return st, e).
Proof. unfold guess, terminal. rewrite Hst. by intros ->. Qed.

Lemma timeout_terminal :
  terminal st = true → timeout e = (Return st, e).
Proof. unfold timeout, terminal. rewrite Hst. by intros ->. Qed.

Lemma guess_ignored (letter : string) :
  one_letter (Py.upper (Py.strip letter)) = false
  ∨ Py.upper (Py.strip letter) ∈ guessed st →
  guess e letter = (Return st, e).
Proof.
  intros H. unfold guess. rewrite Hst.
  destruct (is_won st || is_lost st); [done|].
  cbv zeta. rewrite letter_test.
  destruct H as [-> | H]; [done|].
  destruct (one_letter _); simpl; [|done].
  by rewrite bool_decide_eq_true_2.
Qed.

Lemma guess_fresh (letter : string) :
  terminal st = false →
  one_letter (Py.upper (Py.strip letter)) = true →
  Py.upper (Py.strip letter) ∉ guessed st →
  let l := Py.upper (Py.strip letter) in
  let st' :=
    mkState (answer st)
      (lives st - (if Py.contains l (answer st) then 0 else 1))
      (guessed st ∪ {[l]}) in
  guess e letter = (Return st', with_state e st').
Proof.
  intros Ht Hl Hn. unfold guess, terminal in *. rewrite Hst, Ht.
  cbv zeta. rewrite letter_test, Hl. simpl.
  by rewrite bool_decide_eq_false_2.
Qed.

Lemma timeout_live :
  terminal st = false →
  let st' := mkState (answer st) (Z.max (lives st - 1) 0) (guessed st) in
  timeout e = (Return st', with_state e st').
Proof. intros Ht. unfold timeout, terminal in *. by rewrite Hst, Ht. Qed.

Lemma plays_terminal (cs : list call) :
  terminal st = true → Forall is_play cs →
  run e cs = (replicate (length cs) (Return st), e).
Proof.
  intros Ht. induction 1 as [|c cs Hc _ IH]; [done|].
  simpl. destruct c as [d|l|]; [done| |]; simpl.
  - rewrite (guess_terminal l Ht), IH. done.
  - rewrite (timeout_terminal Ht), IH. done.
Qed.

End CallFacts.

(** ** Facts about normalisation *)

Section NormalizeFacts.

(** Of a text without A-Z the filter keeps spaces only. *)
Lemma kept_without_AZ (u : string) :
  has_AZ u = false →
  Py.lstrip
    (Py.join ""
       (filter (λ ch, Py.contains ch (Py.ascii_uppercase +:+ " ") = true)
               (Py.chars u))) = "".
Proof.
  induction u as [|c u IH]; [done|].
  intros [Hc Hu]%orb_false_iff.
  change (Py.chars (String c u)) with (String c "" :: Py.chars u).
  rewrite filter_cons, contains_keep, Hc. simpl orb.
  destruct (decide _) as [Heq | _]; [|auto].
  apply bool_decide_eq_true in Heq.
  rewrite join_empty_cons, Heq, append_cons, append_nil. simpl. auto.
Qed.

(** An entry whose upper-casing has none of A-Z normalises to the empty
    answer. *)
Lemma normalize_without_AZ (s : string) :
  has_AZ (Py.upper s) = false → _normalize_answer s = "".
Proof.
  intros H. unfold _normalize_answer, Py.strip. cbv zeta.
  by rewrite kept_without_AZ.
Qed.

(** A fresh round is won only on the empty answer. *)
Lemma won_fresh (raw : string) (n : Z) :
  is_won (mkState (_normalize_answer raw) n ∅) = true →
  _normalize_answer raw = "".
Proof.
  intros H. unfold _normalize_answer in *. cbv zeta in *.
  destruct (Py.strip _) as [|c t] eqn:E; [done|].
  apply strip_head in E.
  unfold is_won in H. simpl in H. apply andb_true_iff in H as [H _].
  apply shown_iff in H as [[= ->] | H]; [done|].
  by apply not_elem_of_empty in H.
Qed.

End NormalizeFacts.

(** ** Facts about the masked view *)

Section MaskedFacts.

Lemma join_space_next (p q : string) (ps : list string) :
  single p →
  Py.chars (Py.join " " (p :: q :: ps))
  = p :: " " :: Py.chars (Py.join " " (q :: ps)).
Proof. by intros [c ->]. Qed.

Lemma join_space_last (p : string) :
  single p → Py.chars (Py.join " " [p]) = [p].
Proof. by intros [c ->]. Qed.

Lemma join_space_length (ps : list string) :
  Forall single ps →
  length (Py.chars (Py.join " " ps)) = (2 * length ps - 1)%nat.
Proof.
  induction 1 as [|p ps Hp Hps IH]; [done|].
  destruct ps as [|q ps].
  - by rewrite join_space_last.
  - rewrite join_space_next by done. simpl in *. rewrite IH. lia.
Qed.

Lemma join_space_even (ps : list string) (i : nat) (p : string) :
  Forall single ps → ps !! i = Some p →
  Py.chars (Py.join " " ps) !! (2 * i)%nat = Some p.
Proof.
  intros H. revert i. induction H as [|q ps Hq Hps IH]; intros i Hi; [done|].
  destruct ps as [|q' ps].
  - destruct i as [|i]; [|done]. rewrite join_space_last by done.
    by simplify_eq/=.
  - rewrite join_space_next by done. destruct i as [|i].
    + by simplify_eq/=.
    + replace (2 * S i)%nat with (S (S (2 * i))) by lia. simpl.
      apply IH. done.
Qed.

Lemma join_space_odd (ps : list string) (i : nat) :
  Forall single ps → is_Some (ps !! S i) →
  Py.chars (Py.join " " ps) !! (2 * i + 1)%nat = Some " ".
Proof.
  intros H. revert i. induction H as [|q ps Hq Hps IH]; intros i Hi.
  - by destruct Hi.
  - destruct ps as [|q' ps]; [by destruct Hi|].
    rewrite join_space_next by done. destruct i as [|i]; [done|].
    replace (2 * S i + 1)%nat with (S (S (2 * i + 1))) by lia. simpl.
    apply IH. done.
Qed.

Lemma render_single (st : HangmanState) (ch : string) :
  single ch → single (render st ch).
Proof.
  intros H. unfold render. destruct (shown st ch); [done|].
  by exists "_"%char.
Qed.

Lemma rendered_singles (st : HangmanState) :
  Forall single (map (render st) (Py.chars (answer st))).
Proof.
  apply Forall_forall. intros p Hp%list_elem_of_In%in_map_iff.
  destruct Hp as (ch & <- & Hch%list_elem_of_In).
  apply render_single. by apply chars_single in Hch.
Qed.

End MaskedFacts.

(** ** Facts about construction and reachable engines *)

Section EngineFacts.

Lemma strip_truthy (w : string) :
  Py.truthy w && Py.truthy (Py.strip w) = true ↔ ¬ blank w.
Proof.
  unfold blank. destruct w as [|c w]; [done|].
  destruct (Py.strip (String c w)); simpl; split; done.
Qed.

Lemma clean_pool_empty (pool : list string) :
  clean_pool pool = [] ↔ Forall blank pool.
Proof.
  unfold clean_pool. induction pool as [|w pool IH]; [done|].
  rewrite filter_cons, Forall_cons. destruct (decide _) as [H | H].
  - apply strip_truthy in H. simpl. split; [done | by intros [? _]].
  - rewrite IH. split; [|by intros [_ ?]]. intros ?. split; [|done].
    destruct (decide (blank w)) as [|Hb]; [done|].
    by apply strip_truthy in Hb.
Qed.

Lemma init_cases (words phrases : list string) (n : Z) (rng : Random) :
  (clean_pool words = []
   ∧ init words phrases n rng = Raise (ValueError "words must not be empty"))
  ∨ (clean_pool words ≠ [] ∧ clean_pool phrases = []
     ∧ init words phrases n rng
       = Raise (ValueError "phrases must not be empty"))
  ∨ (clean_pool words ≠ [] ∧ clean_pool phrases ≠ []
     ∧ init words phrases n rng
       = Return (mkEngine rng (clean_pool words) (clean_pool phrases) n None)).
Proof.
  unfold init. cbv zeta.
  destruct (clean_pool words); [by left | right].
  destruct (clean_pool phrases); [by left | by right].
Qed.

Lemma choice_nonempty (r : Random) (seq : list string) :
  seq ≠ [] →
  ∃ raw, raw ∈ seq ∧ choice r seq = Return (raw, λ i, r (S i)).
Proof.
  intros Hne. destruct seq as [|x seq]; [done|].
  exists (nth (r 0%nat `mod` length (x :: seq))%nat (x :: seq) x).
  split; [|done]. apply list_elem_of_In, nth_In.
  apply Nat.mod_upper_bound. done.
Qed.

Lemma start_invalid (e : HangmanEngine) (d : string) :
  d ∉ difficulties →
  start e d
  = (Raise (ValueError "difficulty must be 'basic' or 'intermediate'"), e).
Proof. intros H. unfold start. by rewrite bool_decide_eq_false_2. Qed.

Lemma start_valid (e : HangmanEngine) (d : string) :
  d ∈ difficulties → _words e ≠ [] → _phrases e ≠ [] →
  ∃ raw r',
    raw ∈ (if bool_decide (d = "basic") then _words e else _phrases e)
    ∧ choice (_rng e)
        (if bool_decide (d = "basic") then _words e else _phrases e)
      = Return (raw, r')
    ∧ let st := mkState (_normalize_answer raw) (_default_lives e) ∅ in
      start e d
      = (Return st,
         mkEngine r' (_words e) (_phrases e) (_default_lives e) (Some st)).
Proof.
  intros Hd Hw Hp. unfold start.
  rewrite (bool_decide_eq_true_2 (d ∈ difficulties)) by done.
  simpl negb. cbv iota.
  destruct (choice_nonempty (_rng e)
              (if bool_decide (d = "basic") then _words e else _phrases e))
    as (raw & Hin & Hc); [by case_bool_decide|].
  exists raw, (λ i, _rng e (S i)). by rewrite Hc.
Qed.

Lemma guess_not_started (e : HangmanEngine) (l : string) :
  _state e = None →
  guess e l = (Raise (RuntimeError "game not started"), e).
Proof. unfold guess. by intros ->. Qed.

Lemma timeout_not_started (e : HangmanEngine) :
  _state e = None →
  timeout e = (Raise (RuntimeError "game not started"), e).
Proof. unfold timeout. by intros ->. Qed.

(** A guess either leaves the round as it is or records a new letter. *)
Lemma guess_cases (e : HangmanEngine) (st : HangmanState) (l : string) :
  _state e = Some st →
  guess e l = (Return st, e)
  ∨ (terminal st = false
     ∧ one_letter (Py.upper (Py.strip l)) = true
     ∧ (Py.upper (Py.strip l) ∉ guessed st)
     ∧ guess e l
       = (Return
            (mkState (answer st)
               (lives st
                - (if Py.contains (Py.upper (Py.strip l)) (answer st)
                   then 0 else 1))
               (guessed st ∪ {[Py.upper (Py.strip l)]})),
          with_state e
            (mkState (answer st)
               (lives st
                - (if Py.contains (Py.upper (Py.strip l)) (answer st)
                   then 0 else 1))
               (guessed st ∪ {[Py.upper (Py.strip l)]})))).
Proof.
  intros Hst.
  destruct (terminal st) eqn:Ht; [left; by apply guess_terminal|].
  destruct (one_letter (Py.upper (Py.strip l))) eqn:Hl;
    [|left; apply guess_ignored; auto].
  destruct (decide (Py.upper (Py.strip l) ∈ guessed st)) as [Hin | Hin];
    [left; apply guess_ignored; auto|].
  right. repeat split; try done. by apply guess_fresh.
Qed.

Lemma timeout_cases (e : HangmanEngine) (st : HangmanState) :
  _state e = Some st →
  timeout e = (Return st, e)
  ∨ (terminal st = false
     ∧ timeout e
       = (Return (mkState (answer st) (Z.max (lives st - 1) 0) (guessed st)),
          with_state e
            (mkState (answer st) (Z.max (lives st - 1) 0) (guessed st)))).
Proof.
  intros Hst.
  destruct (terminal st) eqn:Ht; [left; by apply timeout_terminal|].
  right. split; [done|]. by apply timeout_live.
Qed.

(** Calls never touch the pools or the configured life count. *)
Lemma perform_config (e : HangmanEngine) (c : call) :
  _words (perform e c).2 = _words e
  ∧ _phrases (perform e c).2 = _phrases e
  ∧ _default_lives (perform e c).2 = _default_lives e.
Proof.
  destruct c as [d|l|]; simpl.
  - unfold start. destruct (negb _); [done|].
    destruct (choice _ _) as [[raw r']|x]; done.
  - destruct (_state e) as [st|] eqn:Hst.
    + destruct (guess_cases e st l Hst) as [-> | (_ & _ & _ & ->)]; done.
    + by rewrite guess_not_started.
  - destruct (_state e) as [st|] eqn:Hst.
    + destruct (timeout_cases e st Hst) as [-> | (_ & ->)]; done.
    + by rewrite timeout_not_started.
Qed.

Lemma reachable_config (e0 e : HangmanEngine) :
  reachable e0 e →
  _words e = _words e0 ∧ _phrases e = _phrases e0
  ∧ _default_lives e = _default_lives e0.
Proof.
  induction 1 as [|e c _ (Hw & Hp & Hl)]; [done|].
  destruct (perform_config e c) as (-> & -> & ->). done.
Qed.

Lemma reachable_run (e0 e : HangmanEngine) (cs : list call) :
  reachable e0 e → reachable e0 (run e cs).2.
Proof.
  revert e. induction cs as [|c cs IH]; intros e He; [done|].
  simpl. destruct (perform e c) as [r e1] eqn:E1.
  specialize (IH e1). destruct (run e1 cs) as [rs e2]. simpl in *.
  apply IH. change e1 with (r, e1).2. rewrite <- E1. by constructor.
Qed.

End EngineFacts.

(** ** The scenarios of the test suite *)

Example scenario_win :
  play ["ABC"] ["X Y"] 3 [Start "basic"; Guess "A"; Guess "B"; Guess "C"]
  = [Some (3, "_ _ _", false, false); Some (3, "A _ _", false, false);
     Some (3, "A B _", false, false); Some (3, "A B C", true, false)].
Proof. vm_compute. reflexivity. Qed.

Example scenario_timeouts :
  play ["ABC"] ["X Y"] 2 [Start "basic"; Timeout; Timeout; Timeout]
  = [Some (2, "_ _ _", false, false); Some (1, "_ _ _", false, false);
     Some (0, "_ _ _", false, true); Some (0, "_ _ _", false, true)].
Proof. vm_compute. reflexivity. Qed.

Example scenario_loss :
  play ["A"] ["B C"] 2 [Start "basic"; Guess "Z"; Guess "Y"; Guess "X"]
  = [Some (2, "_", false, false); Some (1, "_", false, false);
     Some (0, "_", false, true); Some (0, "_", false, true)].
Proof. vm_compute. reflexivity. Qed.

Example scenario_phrase :
  play ["A"] ["X Y"] 2 [Start "intermediate"; Guess "1"; Guess "ab"; Guess "x"]
  = [Some (2, "_   _", false, false); Some (2, "_   _", false, false);
     Some (2, "_   _", false, false); Some (2, "X   _", false, false)].
Proof. vm_compute. reflexivity. Qed.

Example scenario_errors :
  play ["A"] ["X Y"] 2 [Guess "A"; Timeout; Start "hard"] = [None; None; None]
  ∧ play [" "; ""] ["X Y"] 2 [Start "basic"] = [].
Proof. split; vm_compute; reflexivity. Qed.

Example normalize_keeps_letters_and_spaces :
  _normalize_answer "  unit-tests 1 " = "UNITTESTS"
  ∧ _normalize_answer " clean  code! " = "CLEAN  CODE".
Proof. split; vm_compute; reflexivity. Qed.

(** * The properties *)

(** ** Terminal rounds *)

(** C2. Once the round of an engine is won or lost, every later
    [guess] or [timeout] call returns that same state and leaves the
    engine as it was: a single call of either kind, and any sequence of
    such calls.  The lives, the guessed set, the answer and the masked
    view of what is returned are those of the state before. *)
Theorem terminal_round_is_frozen
  (e : HangmanEngine) (st : HangmanState) (cs : list call) :
  _state e = Some st →
  is_won st || is_lost st = true →
  Forall is_play cs →
  (∀ letter, guess e letter = (Return st, e))
  ∧ timeout e = (Return st, e)
  ∧ run e cs = (replicate (length cs) (Return st), e)
  ∧ ∀ r, r ∈ (run e cs).1 →
      ∃ st', r = Return st' ∧ lives st' = lives st
             ∧ guessed st' = guessed st ∧ answer st' = answer st
             ∧ masked st' = masked st.
Proof.
  intros Hst Ht Hcs. fold (terminal st) in Ht.
  split; [intros l; by apply guess_terminal|].
  split; [by apply timeout_terminal|].
  rewrite (plays_terminal e st Hst cs Ht Hcs). split; [done|].
  simpl. intros r Hr%elem_of_replicate. destruct Hr as [-> _]. eauto 10.
Qed.

Lemma terminal_round_is_frozen_witness :
  let e := mkEngine first_rng ["A"] ["B C"] 2
             (Some (mkState "A" 0 {["Z"; "Y"]})) in
  run e [Guess "X"; Timeout; Guess "A"]
  = (replicate 3 (Return (mkState "A" 0 {["Z"; "Y"]})), e).
Proof.
  intros e.
  refine (proj1 (proj2 (proj2
    (terminal_round_is_frozen e (mkState "A" 0 {["Z"; "Y"]})
       [Guess "X"; Timeout; Guess "A"] _ _ _)))).
  - reflexivity.
  - vm_compute. reflexivity.
  - repeat constructor.
Defined.

(** ** Won and lost *)

(** C4 (amended). For every state: it is won exactly when every
    character of the answer other than a space is in the guessed set; it
    is lost exactly when the life count is zero or below and the state is
    not won, which for a life count that is not negative means a life
    count of zero; won and lost never hold together; and a state without
    lives whose letters are all guessed is won, not lost. *)
Theorem won_lost_characterised (st : HangmanState) :
  (is_won st = true
   ↔ ∀ ch, ch ∈ Py.chars (answer st) → ch ≠ " " → ch ∈ guessed st)
  ∧ (is_lost st = true ↔ lives st ≤ 0 ∧ is_won st = false)
  ∧ (0 ≤ lives st → (is_lost st = true ↔ lives st = 0 ∧ is_won st = false))
  ∧ ¬ (is_won st = true ∧ is_lost st = true)
  ∧ (lives st ≤ 0 →
     (∀ ch, ch ∈ Py.chars (answer st) → ch ≠ " " → ch ∈ guessed st) →
     is_won st = true ∧ is_lost st = false).
Proof.
  split; [apply is_won_iff|].
  split; [apply is_lost_iff|].
  split; [intros H; rewrite is_lost_iff; intuition lia|].
  split.
  - intros [Hw Hl]. apply is_lost_iff in Hl as [_ Hl]. congruence.
  - intros _ H%is_won_iff. split; [done|].
    unfold is_lost. rewrite H. apply andb_false_r.
Qed.

Lemma won_lost_characterised_witness :
  is_won (mkState "A B" 0 {["A"; "B"]}) = true
  ∧ is_lost (mkState "A B" 0 {["A"; "B"]}) = false.
Proof.
  refine (proj2 (proj2 (proj2 (proj2
    (won_lost_characterised (mkState "A B" 0 {["A"; "B"]})))))
    _ _).
  - simpl. lia.
  - intros ch Hch Hsp. simpl in Hch.
    repeat (apply elem_of_cons in Hch as [-> | Hch]; [set_solver|]).
    by apply elem_of_nil in Hch.
Defined.

(** C4, as stated, fails on a state that the engine produces: an engine
    configured with a negative life count starts a round that is lost
    although its life count is not zero. *)
Lemma lost_without_zero_lives :
  ∃ e0 st,
    init ["A"] ["B C"] (-1) first_rng = Return e0
    ∧ (start e0 "basic").1 = Return st
    ∧ is_lost st = true
    ∧ ¬ (lives st = 0 ∧ is_won st = false).
Proof.
  exists (mkEngine first_rng ["A"] ["B C"] (-1) None), (mkState "A" (-1) ∅).
  split; [reflexivity|]. split; [vm_compute; reflexivity|].
  split; [vm_compute; reflexivity|]. simpl. intros [? _]. lia.
Qed.

(** ** Guesses and timeouts on a live round *)

(** C5. On a round that is neither won nor lost, a guess whose input,
    trimmed and upper-cased, is exactly one letter A-Z not yet guessed
    returns (and stores) a state whose guessed set is the old one with
    that letter added, whose answer is the old answer, and whose life
    count is the old one when the letter occurs in the answer and one
    less when it does not. *)
Theorem new_letter_guess
  (e : HangmanEngine) (st : HangmanState) (letter l : string) :
  _state e = Some st →
  is_won st || is_lost st = false →
  Py.upper (Py.strip letter) = l →
  one_letter l = true →
  l ∉ guessed st →
  ∃ st',
    guess e letter = (Return st', with_state e st')
    ∧ guessed st' = guessed st ∪ {[l]}
    ∧ answer st' = answer st
    ∧ (l ∈ Py.chars (answer st) → lives st' = lives st)
    ∧ (l ∉ Py.chars (answer st) → lives st' = lives st - 1).
Proof.
  intros Hst Ht <- Hl Hn. eexists. split.
  { by apply guess_fresh. }
  simpl. split; [done|]. split; [done|].
  destruct (Py.upper (Py.strip letter)) as [|c [|? ?]] eqn:E; try done.
  pose proof (contains_single c (answer st)) as Hc.
  destruct (Py.contains (String c "") (answer st)).
  - split; [intros _; lia | intros H; exfalso; by apply H, Hc].
  - split; [|intros _; lia]. intros H%Hc. done.
Qed.

Lemma new_letter_guess_witness :
  ∃ st',
    guess (mkEngine first_rng ["ABC"] ["X Y"] 3 (Some (mkState "ABC" 3 ∅)))
      " z "
    = (Return st',
       with_state
         (mkEngine first_rng ["ABC"] ["X Y"] 3 (Some (mkState "ABC" 3 ∅)))
         st')
    ∧ guessed st' = (∅ : gset string) ∪ {["Z"]}
    ∧ answer st' = "ABC"
    ∧ ("Z" ∈ Py.chars "ABC" → lives st' = 3)
    ∧ ("Z" ∉ Py.chars "ABC" → lives st' = 3 - 1).
Proof.
  refine (new_letter_guess
    (mkEngine first_rng ["ABC"] ["X Y"] 3 (Some (mkState "ABC" 3 ∅)))
    (mkState "ABC" 3 ∅) " z " "Z" _ _ _ _ _).
  - reflexivity.
  - vm_compute. reflexivity.
  - vm_compute. reflexivity.
  - vm_compute. reflexivity.
  - simpl. apply not_elem_of_empty.
Defined.

(** C6. On a round that is neither won nor lost, [timeout] returns (and
    stores) a state whose life count is the old one minus one, clamped
    at zero, with the guessed set and the answer of the old state.  Such
    a round has a life left, so the clamp leaves the decrement as it
    is. *)
Theorem timeout_takes_one_life (e : HangmanEngine) (st : HangmanState) :
  _state e = Some st →
  is_won st || is_lost st = false →
  ∃ st',
    timeout e = (Return st', with_state e st')
    ∧ lives st' = Z.max (lives st - 1) 0
    ∧ lives st' = lives st - 1
    ∧ guessed st' = guessed st
    ∧ answer st' = answer st.
Proof.
  intros Hst Ht. eexists. split.
  { by apply timeout_live. }
  simpl. repeat split; try done.
  apply live_round in Ht. lia.
Qed.

Lemma timeout_takes_one_life_witness :
  ∃ st',
    timeout (mkEngine first_rng ["ABC"] ["X Y"] 2 (Some (mkState "ABC" 2 ∅)))
    = (Return st',
       with_state
         (mkEngine first_rng ["ABC"] ["X Y"] 2 (Some (mkState "ABC" 2 ∅)))
         st')
    ∧ lives st' = Z.max (2 - 1) 0
    ∧ lives st' = 2 - 1
    ∧ guessed st' = ∅
    ∧ answer st' = "ABC".
Proof.
  refine (timeout_takes_one_life
    (mkEngine first_rng ["ABC"] ["X Y"] 2 (Some (mkState "ABC" 2 ∅)))
    (mkState "ABC" 2 ∅) _ _).
  - reflexivity.
  - vm_compute. reflexivity.
Defined.

(** C7. On a started round, a guess whose input, trimmed and
    upper-cased, is not exactly one letter A-Z, or is a letter already
    guessed, returns the state as it was and leaves the engine as it
    was; no guess on a started round raises; and guessing the same input
    a second time, right or wrong, returns what the first guess
    returned and changes nothing. *)
Theorem useless_guess_is_ignored
  (e : HangmanEngine) (st : HangmanState) (letter : string) :
  _state e = Some st →
  (one_letter (Py.upper (Py.strip letter)) = false
   ∨ Py.upper (Py.strip letter) ∈ guessed st →
   guess e letter = (Return st, e))
  ∧ (∃ st', (guess e letter).1 = Return st')
  ∧ guess (guess e letter).2 letter = guess e letter.
Proof.
  intros Hst. split; [by apply guess_ignored|].
  destruct (guess_cases e st letter Hst) as [H | (_ & _ & _ & H)].
  - rewrite H. simpl. split; [eauto | done].
  - rewrite H. simpl. split; [eauto|].
    apply guess_ignored; [done|]. right. simpl. set_solver.
Qed.

Lemma useless_guess_is_ignored_witness :
  let e := mkEngine first_rng ["ABC"] ["X Y"] 3
             (Some (mkState "ABC" 2 {["Z"]})) in
  guess e "ab" = (Return (mkState "ABC" 2 {["Z"]}), e)
  ∧ guess e "z" = (Return (mkState "ABC" 2 {["Z"]}), e).
Proof.
  intros e. split.
  - refine (proj1 (useless_guess_is_ignored e (mkState "ABC" 2 {["Z"]}) "ab"
                     _) _); [reflexivity | left; vm_compute; reflexivity].
  - refine (proj1 (useless_guess_is_ignored e (mkState "ABC" 2 {["Z"]}) "z"
                     _) _); [reflexivity | right].
    apply (bool_decide_unpack _). vm_compute. exact I.
Defined.

(** ** The masked view *)

(** C1 (amended). For every state, the masked view shows the positions
    of the answer in their order, one space apart: the view is
    [2 * n - 1] characters long for an answer of [n] characters; its
    character at [2 * i] is the answer's character at [i] when that is a
    space or in the guessed set, and the placeholder otherwise; and its
    character at [2 * i + 1], between two positions, is a space put
    there by the engine.  For the answer ABC, after a guess of A, the
    view is A, space, placeholder, space, placeholder. *)
Theorem masked_view_positions (st : HangmanState) :
  length (Py.chars (masked st))
  = (2 * length (Py.chars (answer st)) - 1)%nat
  ∧ (∀ i ch, Py.chars (answer st) !! i = Some ch →
       Py.chars (masked st) !! (2 * i)%nat
       = Some (if bool_decide (ch = " ") || bool_decide (ch ∈ guessed st)
               then ch else MASK_CHAR))
  ∧ (∀ i, is_Some (Py.chars (answer st) !! S i) →
       Py.chars (masked st) !! (2 * i + 1)%nat = Some " ")
  ∧ (∀ e, _state e = Some st → answer st = "ABC" → guessed st = ∅ →
       0 < lives st →
       ∃ st', guess e "A" = (Return st', with_state e st')
              ∧ masked st' = "A _ _").
Proof.
  pose proof (rendered_singles st) as Hs.
  change (masked st)
    with (Py.join " " (map (render st) (Py.chars (answer st)))).
  split; [|split; [|split]].
  - rewrite join_space_length by done. by rewrite length_map.
  - intros i ch Hi. apply (join_space_even _ i (render st ch) Hs).
    by rewrite list_lookup_fmap, Hi.
  - intros i Hi. apply join_space_odd; [done|].
    rewrite list_lookup_fmap. by apply fmap_is_Some.
  - intros e Hst Ha Hg Hl. destruct st as [a n g]. simpl in *. subst a g.
    eexists. split.
    + apply (guess_fresh e _ Hst "A").
      * unfold terminal, is_lost. simpl lives.
        replace (n <=? 0) with false by (symmetry; apply Z.leb_gt; lia).
        reflexivity.
      * reflexivity.
      * apply not_elem_of_empty.
    + vm_compute. reflexivity.
Qed.

Lemma masked_view_positions_witness :
  ∃ st',
    guess (mkEngine first_rng ["ABC"] ["X Y"] 3 (Some (mkState "ABC" 3 ∅))) "A"
    = (Return st',
       with_state
         (mkEngine first_rng ["ABC"] ["X Y"] 3 (Some (mkState "ABC" 3 ∅)))
         st')
    ∧ masked st' = "A _ _".
Proof.
  refine (proj2 (proj2 (proj2 (masked_view_positions (mkState "ABC" 3 ∅))))
            (mkEngine first_rng ["ABC"] ["X Y"] 3 (Some (mkState "ABC" 3 ∅)))
            _ _ _ _).
  - reflexivity.
  - reflexivity.
  - reflexivity.
  - simpl. lia.
Defined.

(** C1, as stated, fails: in scenario A the view after the guess of A
    has the engine's separators in it and is not the three characters
    A, placeholder, placeholder. *)
Lemma masked_view_has_separators :
  ∃ e0 st,
    init ["ABC"] ["X Y"] 3 first_rng = Return e0
    ∧ _state (run e0 [Start "basic"; Guess "A"]).2 = Some st
    ∧ answer st = "ABC"
    ∧ masked st = "A _ _"
    ∧ masked st ≠ "A__".
Proof.
  exists (mkEngine first_rng ["ABC"] ["X Y"] 3 None),
         (mkState "ABC" 3 (∅ ∪ {["A"]})).
  split; [reflexivity|]. split; [vm_compute; reflexivity|].
  split; [reflexivity|]. split; [vm_compute; reflexivity|].
  vm_compute. discriminate.
Qed.

(** ** The life count *)

(** One call keeps the life count of the round within the configured
    range. *)
Lemma perform_lives_range (n : Z) (e : HangmanEngine) (c : call) :
  0 < n → _default_lives e = n →
  (∀ st, _state e = Some st → 0 ≤ lives st ≤ n) →
  ∀ st', _state (perform e c).2 = Some st' → 0 ≤ lives st' ≤ n.
Proof.
  intros Hn Hd IH st'. destruct c as [d|l|]; simpl.
  - unfold start. destruct (negb _); [apply IH|].
    destruct (choice _ _) as [[raw r']|x]; [|apply IH].
    simpl. intros [= <-]. simpl. lia.
  - destruct (_state e) as [st|] eqn:Hst.
    + specialize (IH st eq_refl).
      destruct (guess_cases e st l Hst) as [-> | (Ht & _ & _ & ->)]; simpl.
      * rewrite Hst. intros [= <-]. done.
      * intros [= <-]. simpl. apply live_round in Ht.
        destruct (Py.contains _ _); lia.
    + rewrite guess_not_started by done. simpl. by rewrite Hst.
  - destruct (_state e) as [st|] eqn:Hst.
    + specialize (IH st eq_refl).
      destruct (timeout_cases e st Hst) as [-> | (Ht & ->)]; simpl.
      * rewrite Hst. intros [= <-]. done.
      * intros [= <-]. simpl. lia.
    + rewrite timeout_not_started by done. simpl. by rewrite Hst.
Qed.

(** C3. For an engine constructed with a positive default life count,
    the round held by the engine after any sequence of [start], [guess]
    and [timeout] calls has a life count between zero and that
    default. *)
Theorem lives_stay_in_range
  (words phrases : list string) (n : Z) (rng : Random)
  (e0 e : HangmanEngine) (st : HangmanState) :
  init words phrases n rng = Return e0 →
  0 < n →
  reachable e0 e →
  _state e = Some st →
  0 ≤ lives st ≤ n.
Proof.
  intros Hinit Hn Hr. revert st.
  assert (_default_lives e0 = n ∧ _state e0 = None) as [Hd0 Hs0].
  { destruct (init_cases words phrases n rng)
      as [[_ H] | [(_ & _ & H) | (_ & _ & H)]];
      rewrite H in Hinit; by simplify_eq. }
  induction Hr as [|e c Hr IH]; intros st.
  - by rewrite Hs0.
  - apply (perform_lives_range n e c Hn); [|done].
    apply reachable_config in Hr as (_ & _ & ->). done.
Qed.

Lemma lives_stay_in_range_witness :
  0 ≤ 1 ≤ 3.
Proof.
  refine (lives_stay_in_range ["ABC"] ["X Y"] 3 first_rng
            (mkEngine first_rng ["ABC"] ["X Y"] 3 None)
            (run (mkEngine first_rng ["ABC"] ["X Y"] 3 None)
               [Start "basic"; Guess "Z"; Timeout; Guess "A"]).2
            (mkState "ABC" 1 (∅ ∪ {["Z"]} ∪ {["A"]})) _ _ _ _).
  - reflexivity.
  - lia.
  - apply reachable_run. constructor.
  - vm_compute. reflexivity.
Defined.

(** ** Usage errors *)

Lemma difficulties_iff (d : string) :
  d ∈ difficulties ↔ d = "basic" ∨ d = "intermediate".
Proof. unfold difficulties. set_solver. Qed.

(** Without a successful [start] the engine holds no round. *)
Lemma run_not_started (e : HangmanEngine) (cs : list call) :
  _state e = None → Forall starts_nothing cs → (run e cs).2 = e.
Proof.
  intros He. induction 1 as [|c cs Hc _ IH]; [done|].
  simpl. assert (perform e c = ((perform e c).1, e)) as ->.
  { destruct c as [d|l|]; simpl in *.
    - by rewrite start_invalid.
    - by rewrite guess_not_started.
    - by rewrite timeout_not_started. }
  destruct (run e cs) as [rs e2]. simpl in *. done.
Qed.

(** C8. Construction raises a [ValueError] exactly when every entry of
    the word pool, or every entry of the phrase pool, is blank (empty or
    white space only), and returns an engine otherwise.  On a constructed
    engine, reading [state] before any round is started (after any
    calls other than a [start] with a valid difficulty) raises a
    [RuntimeError]; and after any sequence of calls, [start] raises
    exactly when its argument is neither basic nor intermediate, in which
    case it raises a [ValueError] and leaves the engine, with the round
    it holds, as it was. *)
Theorem usage_errors_raise
  (words phrases : list string) (n : Z) (rng : Random) :
  ((Forall blank words ∨ Forall blank phrases)
   ↔ ∃ msg, init words phrases n rng = Raise (ValueError msg))
  ∧ (¬ (Forall blank words ∨ Forall blank phrases)
     ↔ ∃ e0, init words phrases n rng = Return e0)
  ∧ ∀ e0, init words phrases n rng = Return e0 →
      (∀ cs, Forall starts_nothing cs →
         state (run e0 cs).2 = Raise (RuntimeError "game not started"))
      ∧ ∀ e d, reachable e0 e →
          ((d ≠ "basic" ∧ d ≠ "intermediate")
           ↔ ∃ x, (start e d).1 = Raise x)
          ∧ ((d ≠ "basic" ∧ d ≠ "intermediate") →
             start e d
             = (Raise
                  (ValueError "difficulty must be 'basic' or 'intermediate'"),
                e)).
Proof.
  rewrite <- !clean_pool_empty.
  destruct (init_cases words phrases n rng)
    as [[Hw H] | [(Hw & Hp & H) | (Hw & Hp & H)]]; rewrite H.
  - split; [split; eauto|]. split; [|done].
    split; [intros []; auto | by intros [? ?]].
  - split; [split; eauto|]. split; [|done].
    split; [intros []; auto | by intros [? ?]].
  - split; [split; [by intros [|] | by intros [? ?]]|].
    split; [split; [eauto | by intros _ [|]]|].
    intros e0 [= <-]. split.
    { intros cs Hcs. by rewrite run_not_started. }
    intros e d Hr.
    apply reachable_config in Hr as (Hew & Hep & _). simpl in *.
    assert (d ∉ difficulties ↔ d ≠ "basic" ∧ d ≠ "intermediate") as Hd.
    { rewrite difficulties_iff. tauto. }
    rewrite <- Hd. split; [|apply start_invalid].
    split.
    + intros Hn. rewrite start_invalid by done. simpl. eauto.
    + intros [x Hx] Hin.
      destruct (start_valid e d Hin) as (raw & r' & _ & _ & Hs);
        [congruence..|].
      cbv zeta in Hs. rewrite Hs in Hx. done.
Qed.

Lemma usage_errors_raise_witness :
  state (mkEngine first_rng ["ABC"] ["X Y"] 3 None)
  = Raise (RuntimeError "game not started")
  ∧ ∃ x, (start (mkEngine first_rng ["ABC"] ["X Y"] 3 None) "hard").1
         = Raise x.
Proof.
  destruct (proj2 (proj2 (usage_errors_raise [" "; "ABC"] ["X Y"; ""] 3
                            first_rng))
              (mkEngine first_rng ["ABC"] ["X Y"] 3 None) eq_refl)
    as [Hs Hstart].
  split; [exact (Hs [] (Forall_nil_2 _))|].
  refine (proj1 (proj1 (Hstart (mkEngine first_rng ["ABC"] ["X Y"] 3 None)
                          "hard" (reach_init _))) _).
  split; discriminate.
Defined.

(** ** Rounds that are over from the start *)

(** C9 (amended). If the entry drawn by [start], once upper-cased, has
    none of the characters A-Z in it (digits or punctuation only, say),
    the answer of the new round is the empty string and the round is
    won, and not lost, from the start; every later [guess] and [timeout]
    call returns that state and changes nothing. *)
Theorem entry_without_AZ_is_won_at_start
  (e : HangmanEngine) (d raw : string) (r' : Random) (cs : list call) :
  d = "basic" ∨ d = "intermediate" →
  choice (_rng e) (if bool_decide (d = "basic") then _words e else _phrases e)
  = Return (raw, r') →
  has_AZ (Py.upper raw) = false →
  Forall is_play cs →
  ∃ st e',
    start e d = (Return st, e')
    ∧ _state e' = Some st
    ∧ answer st = ""
    ∧ is_won st = true
    ∧ is_lost st = false
    ∧ run e' cs = (replicate (length cs) (Return st), e').
Proof.
  intros Hd%difficulties_iff Hc Hraw Hcs.
  unfold start. rewrite (bool_decide_eq_true_2 (d ∈ difficulties)) by done.
  simpl negb. cbv iota. rewrite Hc. cbv zeta.
  rewrite (normalize_without_AZ raw Hraw).
  eexists _, _. split; [reflexivity|]. split; [reflexivity|].
  split; [reflexivity|]. split; [reflexivity|].
  split; [unfold is_lost; apply andb_false_r|].
  by apply plays_terminal.
Qed.

Lemma entry_without_AZ_is_won_at_start_witness :
  ∃ st e',
    start (mkEngine first_rng ["2048!"] ["X Y"] 3 None) "basic"
    = (Return st, e')
    ∧ _state e' = Some st
    ∧ answer st = ""
    ∧ is_won st = true
    ∧ is_lost st = false
    ∧ run e' [Guess "A"; Timeout]
      = (replicate 2 (Return st), e').
Proof.
  refine (entry_without_AZ_is_won_at_start
            (mkEngine first_rng ["2048!"] ["X Y"] 3 None) "basic" "2048!"
            (λ i, first_rng (S i)) [Guess "A"; Timeout] _ _ _ _).
  - left. reflexivity.
  - reflexivity.
  - vm_compute. reflexivity.
  - repeat constructor.
Defined.

(** C9, as stated, fails on an entry in lower case: it has none of the
    characters A-Z in it, and yet its normalised answer is not empty and
    the round is not won at the start, because the entry is upper-cased
    before the characters A-Z are looked for. *)
Lemma lowercase_entry_is_not_letterless :
  ∃ e0 st,
    init ["abc"] ["x y"] 3 first_rng = Return e0
    ∧ _words e0 = ["abc"]
    ∧ (∀ c, String c "" ∈ Py.chars "abc" → is_AZ c = false)
    ∧ (start e0 "basic").1 = Return st
    ∧ answer st = "ABC"
    ∧ answer st ≠ ""
    ∧ is_won st = false.
Proof.
  exists (mkEngine first_rng ["abc"] ["x y"] 3 None), (mkState "ABC" 3 ∅).
  split; [reflexivity|]. split; [reflexivity|]. split.
  { intros c Hc. simpl in Hc.
    repeat (apply elem_of_cons in Hc as [[= ->] | Hc]; [reflexivity|]).
    by apply elem_of_nil in Hc. }
  split; [vm_compute; reflexivity|]. split; [reflexivity|].
  split; [discriminate | vm_compute; reflexivity].
Qed.

(** C10. The constructor accepts a default life count of zero or below
    (it raises only on a blank pool).  On such an engine, after any
    sequence of calls, a [start] with a valid difficulty returns a round
    whose life count is that default; the round is lost unless it is
    won, which it is only on the empty answer; and every later [guess]
    and [timeout] call returns that state and changes nothing. *)
Theorem nonpositive_lives_round_is_over
  (words phrases : list string) (n : Z) (rng : Random) :
  n ≤ 0 →
  ¬ Forall blank words →
  ¬ Forall blank phrases →
  ∃ e0,
    init words phrases n rng = Return e0
    ∧ ∀ e d cs,
        reachable e0 e →
        d = "basic" ∨ d = "intermediate" →
        Forall is_play cs →
        ∃ st e',
          start e d = (Return st, e')
          ∧ _state e' = Some st
          ∧ lives st = n
          ∧ is_lost st = negb (is_won st)
          ∧ (is_won st = true → answer st = "")
          ∧ run e' cs = (replicate (length cs) (Return st), e').
Proof.
  rewrite <- !clean_pool_empty. intros Hn Hw Hp.
  destruct (init_cases words phrases n rng)
    as [[? _] | [(_ & ? & _) | (_ & _ & H)]]; [done..|].
  eexists. split; [exact H|].
  intros e d cs Hr Hd%difficulties_iff Hcs.
  apply reachable_config in Hr as (Hew & Hep & Hel). simpl in *.
  destruct (start_valid e d Hd) as (raw & r' & _ & _ & Hs); [congruence..|].
  cbv zeta in Hs. rewrite Hel in Hs. rewrite Hs.
  eexists _, _. split; [reflexivity|]. split; [reflexivity|].
  split; [reflexivity|].
  assert (is_lost (mkState (_normalize_answer raw) n ∅)
          = negb (is_won (mkState (_normalize_answer raw) n ∅))) as Hl.
  { unfold is_lost. simpl lives.
    replace (n <=? 0) with true by (symmetry; apply Z.leb_le; lia). done. }
  split; [done|]. split; [apply won_fresh|].
  apply plays_terminal; [done| |done].
  unfold terminal. rewrite Hl. apply orb_negb_r.
Qed.

Lemma nonpositive_lives_round_is_over_witness :
  ∃ e0,
    init ["A"] ["B C"] 0 first_rng = Return e0
    ∧ ∃ st e',
        start e0 "basic" = (Return st, e')
        ∧ lives st = 0
        ∧ run e' [Guess "A"; Timeout] = (replicate 2 (Return st), e').
Proof.
  destruct (nonpositive_lives_round_is_over ["A"] ["B C"] 0 first_rng)
    as (e0 & Hinit & Hall).
  - lia.
  - intros H. apply Forall_cons in H as [H _]. vm_compute in H. discriminate.
  - intros H. apply Forall_cons in H as [H _]. vm_compute in H. discriminate.
  - exists e0. split; [exact Hinit|].
    destruct (Hall e0 "basic" [Guess "A"; Timeout])
      as (st & e' & Hs & _ & Hl & _ & _ & Hrun).
    + constructor.
    + left. reflexivity.
    + repeat constructor.
    + exists st, e'. auto.
Defined.

(** * Further properties of the engine and of its front ends *)

(** ** More facts about the string primitives *)

Section StripFacts.

Lemma isspace_upper (c : ascii) : Py.isspace (Py.upper_char c) = Py.isspace c.
Proof. by destruct c as [[] [] [] [] [] [] [] []]. Qed.

Lemma upper_char_idem (c : ascii) :
  Py.upper_char (Py.upper_char c) = Py.upper_char c.
Proof. by destruct c as [[] [] [] [] [] [] [] []]. Qed.

Lemma upper_lower_char (c : ascii) :
  (nat_of_ascii c <? 128)%nat = true →
  Py.upper_char (Py.lower_char c) = Py.upper_char c.
Proof. by destruct c as [[] [] [] [] [] [] [] []]. Qed.

Lemma upper_char_AZ_id (c : ascii) : is_AZ c = true → Py.upper_char c = c.
Proof. by destruct c as [[] [] [] [] [] [] [] []]. Qed.

Lemma AZ_not_space (c : ascii) : is_AZ c = true → Py.isspace c = false.
Proof. by destruct c as [[] [] [] [] [] [] [] []]. Qed.

Lemma upper_idem (s : string) : Py.upper (Py.upper s) = Py.upper s.
Proof.
  induction s as [|c s IH]; [done|]. simpl. by rewrite upper_char_idem, IH.
Qed.

Lemma upper_lower (s : string) :
  Py.isascii s = true → Py.upper (Py.lower s) = Py.upper s.
Proof.
  induction s as [|c s IH]; [done|]. simpl. intros [Hc Hs]%andb_true_iff.
  by rewrite upper_lower_char, IH.
Qed.

Lemma lstrip_upper (s : string) : Py.lstrip (Py.upper s) = Py.upper (Py.lstrip s).
Proof.
  induction s as [|c s IH]; [done|]. simpl. rewrite isspace_upper.
  by destruct (Py.isspace c).
Qed.

Lemma rstrip_upper (s : string) : Py.rstrip (Py.upper s) = Py.upper (Py.rstrip s).
Proof.
  induction s as [|c s IH]; [done|]. simpl. rewrite IH, isspace_upper.
  destruct (Py.rstrip s); [by destruct (Py.isspace c) | done].
Qed.

Lemma strip_upper (s : string) : Py.strip (Py.upper s) = Py.upper (Py.strip s).
Proof. unfold Py.strip. by rewrite lstrip_upper, rstrip_upper. Qed.

Lemma lstrip_Forall (P : string → Prop) (s : string) :
  Forall P (Py.chars s) → Forall P (Py.chars (Py.lstrip s)).
Proof.
  induction s as [|c s IH]; [done|]. simpl. intros H.
  destruct (Py.isspace c); [|done]. apply IH. by apply Forall_cons in H as [_ ?].
Qed.

Lemma rstrip_Forall (P : string → Prop) (s : string) :
  Forall P (Py.chars s) → Forall P (Py.chars (Py.rstrip s)).
Proof.
  induction s as [|c s IH]; [done|]. simpl. intros [Hc Hs]%Forall_cons.
  specialize (IH Hs). destruct (Py.rstrip s).
  - destruct (Py.isspace c); [done|]. simpl. by constructor.
  - simpl in *. by constructor.
Qed.

(** What is left of a right strip does not end in white space. *)
Lemma rstrip_last (s : string) (ch : string) :
  last (Py.chars (Py.rstrip s)) = Some ch →
  ∃ c, ch = String c "" ∧ Py.isspace c = false.
Proof.
  induction s as [|c s IH]; [done|]. simpl.
  destruct (Py.rstrip s) as [|d r].
  - destruct (Py.isspace c) eqn:E; [done|]. simpl. intros [= <-]. eauto.
  - simpl in *. apply IH.
Qed.

Lemma lstrip_id (s : string) :
  (∀ c, head (Py.chars s) = Some (String c "") → Py.isspace c = false) →
  Py.lstrip s = s.
Proof.
  destruct s as [|c s]; [done|]. simpl. intros H. by rewrite (H c eq_refl).
Qed.

Lemma rstrip_id (s : string) :
  (∀ c, last (Py.chars s) = Some (String c "") → Py.isspace c = false) →
  Py.rstrip s = s.
Proof.
  induction s as [|c s IH]; [done|]. simpl. intros H.
  destruct s as [|d s].
  - simpl. by rewrite (H c eq_refl).
  - rewrite IH by (intros c' Hc'; by apply H). done.
Qed.

Lemma strip_last (s : string) (ch : string) :
  last (Py.chars (Py.strip s)) = Some ch →
  ∃ c, ch = String c "" ∧ Py.isspace c = false.
Proof. apply rstrip_last. Qed.

Lemma strip_first (s : string) (c : ascii) :
  head (Py.chars (Py.strip s)) = Some (String c "") → Py.isspace c = false.
Proof.
  destruct (Py.strip s) as [|d t] eqn:E; [done|]. simpl.
  intros [= <-]. by apply strip_head in E.
Qed.

Lemma strip_id (s : string) :
  (∀ c, head (Py.chars s) = Some (String c "") → Py.isspace c = false) →
  (∀ c, last (Py.chars s) = Some (String c "") → Py.isspace c = false) →
  Py.strip s = s.
Proof. intros Hh Hl. unfold Py.strip. by rewrite lstrip_id, rstrip_id. Qed.

Lemma strip_idem (s : string) : Py.strip (Py.strip s) = Py.strip s.
Proof.
  apply strip_id.
  - apply strip_first.
  - intros c Hc. apply strip_last in Hc as (c' & [= <-] & H). done.
Qed.

Lemma join_chars (s : string) : Py.join "" (Py.chars s) = s.
Proof.
  induction s as [|c s IH]; [done|].
  simpl Py.chars. by rewrite join_empty_cons, IH.
Qed.

Lemma filter_all {A} (P : A → Prop) `{∀ x, Decision (P x)} (l : list A) :
  Forall P l → filter P l = l.
Proof.
  induction 1 as [|x l Hx _ IH]; [done|].
  by rewrite filter_cons_True, IH.
Qed.

End StripFacts.

(** ** Normalised answers *)

Section NormalFormFacts.

Lemma chars_singles (s : string) : Forall single (Py.chars s).
Proof. apply Forall_forall. intros ch Hch. by apply chars_single in Hch. Qed.

Lemma answer_char_kept (c : ascii) :
  Py.contains (String c "") (Py.ascii_uppercase +:+ " ") = true
  ↔ answer_char (String c "").
Proof.
  rewrite contains_keep, orb_true_iff, bool_decide_eq_true.
  unfold answer_char. simpl. split; intros [H | H]; auto.
  - left. by rewrite H.
  - right. by injection H.
Qed.

Lemma answer_char_not_space (c : ascii) :
  answer_char (String c "") → c ≠ " "%char → Py.isspace c = false.
Proof.
  intros [[= ->] | H] Hc; [done|]. by apply AZ_not_space.
Qed.

Lemma upper_answer (s : string) :
  Forall answer_char (Py.chars s) → Py.upper s = s.
Proof.
  induction s as [|c s IH]; [done|]. simpl. intros [Hc Hs]%Forall_cons.
  rewrite IH by done. f_equal.
  destruct Hc as [[= ->] | Hc]; [done|]. by apply upper_char_AZ_id.
Qed.

Lemma kept_chars (u : string) :
  Forall answer_char
    (Py.chars
       (Py.join ""
          (filter (λ ch, Py.contains ch (Py.ascii_uppercase +:+ " ") = true)
                  (Py.chars u)))).
Proof.
  induction u as [|c u IH]; [constructor|].
  simpl Py.chars. rewrite filter_cons. destruct (decide _) as [H | H]; [|done].
  rewrite join_empty_cons, chars_append. simpl. constructor; [|done].
  by apply answer_char_kept.
Qed.

Lemma kept_answer (s : string) :
  Forall answer_char (Py.chars s) →
  Py.join ""
    (filter (λ ch, Py.contains ch (Py.ascii_uppercase +:+ " ") = true)
            (Py.chars s)) = s.
Proof.
  intros H. rewrite filter_all; [apply join_chars|].
  pose proof (chars_singles s) as Hs.
  induction H as [|ch l Hch _ IH]; [done|].
  apply Forall_cons in Hs as [[c ->] Hs]. constructor; [|by apply IH].
  by apply answer_char_kept.
Qed.

Lemma normalize_chars (s : string) :
  Forall answer_char (Py.chars (_normalize_answer s)).
Proof.
  unfold _normalize_answer, Py.strip. cbv zeta.
  apply rstrip_Forall, lstrip_Forall, kept_chars.
Qed.

Lemma normalize_normal (s : string) : normal_form (_normalize_answer s).
Proof.
  split; [apply normalize_chars|]. unfold _normalize_answer. cbv zeta. split.
  - intros H. by apply strip_first in H.
  - intros H. by apply strip_last in H as (c & [= <-] & ?).
Qed.

Lemma normal_form_fixed (s : string) :
  normal_form s → _normalize_answer s = s.
Proof.
  intros (Hc & Hh & Hl). unfold _normalize_answer. cbv zeta.
  rewrite upper_answer, kept_answer by done.
  pose proof (chars_singles s) as Hs. apply strip_id.
  - intros c Hc'. apply answer_char_not_space.
    + apply head_Some_elem_of in Hc'.
      by eapply (proj1 (Forall_forall _ _)) in Hc.
    + intros ->. done.
  - intros c Hc'. apply answer_char_not_space.
    + apply last_Some_elem_of in Hc'.
      by eapply (proj1 (Forall_forall _ _)) in Hc.
    + intros ->. done.
Qed.

End NormalFormFacts.

(** X1. Whatever the entry, the normalised answer consists of letters
    A-Z and spaces only and has no space at either end; normalisation
    leaves a string as it is exactly when the string is of that form; so
    normalising twice is normalising once. *)
Theorem normalize_is_projection (s : string) :
  normal_form (_normalize_answer s)
  ∧ (_normalize_answer s = s ↔ normal_form s)
  ∧ _normalize_answer (_normalize_answer s) = _normalize_answer s.
Proof.
  split; [apply normalize_normal|]. split.
  - split; [intros <-; apply normalize_normal | apply normal_form_fixed].
  - apply normal_form_fixed, normalize_normal.
Qed.

(** X2. For an entry of ASCII text the answer does not depend on the
    letter case: the entry and its lower-casing have the same normalised
    answer, and so do two such entries with the same lower-casing, as a
    word list written in lower case and the same list in capitals. *)
Theorem normalize_ignores_case (s t : string) :
  Py.isascii s = true →
  Py.isascii t = true →
  _normalize_answer (Py.lower s) = _normalize_answer s
  ∧ (Py.lower s = Py.lower t → _normalize_answer s = _normalize_answer t).
Proof.
  intros Hs Ht.
  assert (∀ u, Py.isascii u = true →
               _normalize_answer (Py.lower u) = _normalize_answer u) as H.
  { intros u Hu. unfold _normalize_answer. cbv zeta. by rewrite upper_lower. }
  split; [by apply H|]. intros Heq.
  rewrite <- (H s Hs), <- (H t Ht). by rewrite Heq.
Qed.

Lemma normalize_ignores_case_witness :
  _normalize_answer "Clean Code" = _normalize_answer "cLEAN cODE".
Proof.
  refine (proj2 (normalize_ignores_case "Clean Code" "cLEAN cODE" _ _) _);
    vm_compute; reflexivity.
Defined.

Lemma normalize_is_projection_witness :
  _normalize_answer "CLEAN CODE" = "CLEAN CODE".
Proof.
  refine (proj2 (proj1 (proj2 (normalize_is_projection "CLEAN CODE"))) _).
  split; [|split; discriminate]. simpl.
  repeat (constructor; [first [by left | by right]|]). constructor.
Defined.

(** ** Rounds *)

Section RoundFacts.

(** One [guess] or [timeout] on a started round: what it can change. *)
Lemma play_step (e : HangmanEngine) (st : HangmanState) (c : call) :
  _state e = Some st → is_play c →
  ∃ st',
    perform e c = (Return st', (perform e c).2)
    ∧ _state (perform e c).2 = Some st'
    ∧ answer st' = answer st
    ∧ guessed st ⊆ guessed st'
    ∧ (lives st' = lives st
       ∨ (terminal st = false ∧ lives st' = lives st - 1))
    ∧ (∀ l, l ∈ guessed st' → l ∈ guessed st ∨ one_letter l = true).
Proof.
  intros Hst Hc. destruct c as [d|l|]; [done| |]; simpl.
  - destruct (guess_cases e st l Hst) as [-> | (Ht & Hl & Hn & ->)]; simpl.
    + exists st. repeat split; auto.
    + eexists. split; [reflexivity|]. split; [reflexivity|]. simpl.
      split; [done|]. split; [apply union_subseteq_l|]. split.
      * destruct (Py.contains _ _); [left; lia | right; split; [done | lia]].
      * intros l' [?| ->%elem_of_singleton]%elem_of_union; auto.
  - destruct (timeout_cases e st Hst) as [-> | (Ht & ->)]; simpl.
    + exists st. repeat split; auto.
    + eexists. split; [reflexivity|]. split; [reflexivity|]. simpl.
      split; [done|]. split; [done|]. split; [|auto].
      right. split; [done|]. apply live_round in Ht. lia.
Qed.

(** Any number of [guess] and [timeout] calls on a started round. *)
Lemma plays_grow (e : HangmanEngine) (st : HangmanState) (cs : list call) :
  _state e = Some st → Forall is_play cs →
  ∃ st',
    _state (run e cs).2 = Some st'
    ∧ answer st' = answer st
    ∧ guessed st ⊆ guessed st'
    ∧ lives st' ≤ lives st
    ∧ (0 ≤ lives st → 0 ≤ lives st')
    ∧ Forall (λ r, ∃ s, r = Return s) (run e cs).1.
Proof.
  intros Hst Hcs. revert e st Hst.
  induction Hcs as [|c cs Hc _ IH]; intros e st Hst.
  - exists st. simpl. repeat split; auto. lia.
  - destruct (play_step e st c Hst Hc)
      as (st1 & Hp & Hs1 & Ha & Hg & Hl & _).
    simpl. rewrite Hp.
    destruct (IH _ st1 Hs1) as (st' & Hs' & Ha' & Hg' & Hl' & Hn' & Hr').
    destruct (run (perform e c).2 cs) as [rs e2]. simpl in *.
    exists st'. split; [done|]. split; [congruence|].
    split; [by etrans|].
    assert (0 ≤ lives st → 0 ≤ lives st1) as Hn1.
    { destruct Hl as [-> | [Ht ->]]; [done|]. apply live_round in Ht. lia. }
    split; [destruct Hl as [? | [_ ?]]; lia|]. split; [auto|].
    constructor; eauto.
Qed.

(** Adding a letter that is not in the answer shows nothing new. *)
Lemma shown_wrong_letter (st : HangmanState) (n : Z) (l ch : string) :
  l ∉ Py.chars (answer st) → ch ∈ Py.chars (answer st) →
  shown (mkState (answer st) n (guessed st ∪ {[l]})) ch = shown st ch.
Proof.
  intros Hl Hch. unfold shown. simpl. f_equal.
  apply bool_decide_ext. rewrite elem_of_union, elem_of_singleton.
  split; [intros [?| ->]; [done | by destruct Hl] | auto].
Qed.

Lemma is_won_wrong_letter (st : HangmanState) (n : Z) (l : string) :
  l ∉ Py.chars (answer st) →
  is_won (mkState (answer st) n (guessed st ∪ {[l]})) = is_won st.
Proof.
  intros Hl. unfold is_won. simpl answer.
  assert (∀ L, (∀ ch, ch ∈ L → ch ∈ Py.chars (answer st)) →
    forallb (shown (mkState (answer st) n (guessed st ∪ {[l]}))) L
    = forallb (shown st) L) as H; [|by apply H].
  induction L as [|ch L IH]; [done|]. intros HL. simpl.
  rewrite shown_wrong_letter, IH; [done| |done|].
  - intros ch' ?. apply HL. by right.
  - apply HL. by left.
Qed.

Lemma is_won_same_letters (st : HangmanState) (n : Z) :
  is_won (mkState (answer st) n (guessed st)) = is_won st.
Proof. done. Qed.

Lemma one_letter_alphabet (l : string) :
  one_letter l = true → l ∈ alphabet.
Proof.
  destruct l as [|c [|? ?]]; [done| |done]. simpl. intros H.
  unfold alphabet. apply elem_of_list_to_set, contains_single.
  by rewrite contains_uppercase.
Qed.

Lemma alphabet_size : size alphabet = 26%nat.
Proof. vm_compute. reflexivity. Qed.

Lemma choice_in (r r' : Random) (seq : list string) (raw : string) :
  choice r seq = Return (raw, r') → raw ∈ seq.
Proof.
  destruct seq as [|x seq]; [done|].
  destruct (choice_nonempty r (x :: seq)) as (raw' & Hin & ->); [done|].
  by intros [= <- _].
Qed.

End RoundFacts.

Lemma clean_pool_elem (pool : list string) (raw : string) :
  raw ∈ clean_pool pool ↔ ∃ w, w ∈ pool ∧ ¬ blank w ∧ raw = Py.strip w.
Proof.
  unfold clean_pool. rewrite list_elem_of_fmap. split.
  - intros (w & -> & [Hk Hw]%list_elem_of_filter). exists w.
    split; [done|]. split; [by apply strip_truthy | done].
  - intros (w & Hw & Hb & ->). exists w. split; [done|].
    apply list_elem_of_filter. split; [by apply strip_truthy | done].
Qed.

(** X3. On a constructed engine, after any sequence of calls, [start]
    with a valid difficulty returns and stores a fresh round: its answer
    is the normalisation of a trimmed, non-blank entry of the word list
    for basic and of the phrase list for intermediate, its life count is
    the configured default and nothing is guessed, whatever round the
    engine held before; the lists and the default stay as they were. *)
Theorem start_draws_from_pool
  (words phrases : list string) (n : Z) (rng : Random)
  (e0 e : HangmanEngine) (d : string) :
  init words phrases n rng = Return e0 →
  reachable e0 e →
  d = "basic" ∨ d = "intermediate" →
  ∃ w st e',
    w ∈ (if bool_decide (d = "basic") then words else phrases)
    ∧ ¬ blank w
    ∧ start e d = (Return st, e')
    ∧ _state e' = Some st
    ∧ st = mkState (_normalize_answer (Py.strip w)) n ∅
    ∧ _words e' = _words e0 ∧ _phrases e' = _phrases e0
    ∧ _default_lives e' = n.
Proof.
  intros Hinit Hr Hd%difficulties_iff.
  destruct (init_cases words phrases n rng)
    as [[_ H] | [(_ & _ & H) | (Hw & Hp & H)]];
    rewrite H in Hinit; simplify_eq.
  apply reachable_config in Hr as (Hew & Hep & Hel). simpl in *.
  destruct (start_valid e d Hd) as (raw & r' & Hin & _ & Hs);
    [congruence..|].
  cbv zeta in Hs. rewrite Hew, Hep in Hin.
  assert (∃ w, w ∈ (if bool_decide (d = "basic") then words else phrases)
               ∧ ¬ blank w ∧ raw = Py.strip w) as (w & Hw' & Hb & ->).
  { case_bool_decide; by apply clean_pool_elem. }
  exists w. eexists _, _. split; [done|]. split; [done|].
  split; [exact Hs|]. simpl. rewrite Hel. done.
Qed.

Lemma start_draws_from_pool_witness :
  ∃ w st e',
    w ∈ ["  unit tests "; "clean code"]
    ∧ ¬ blank w
    ∧ start (mkEngine first_rng ["PYTHON"] ["unit tests"; "clean code"] 5 None)
        "intermediate" = (Return st, e')
    ∧ _state e' = Some st
    ∧ st = mkState (_normalize_answer (Py.strip w)) 5 ∅
    ∧ _words e' = ["PYTHON"] ∧ _phrases e' = ["unit tests"; "clean code"]
    ∧ _default_lives e' = 5.
Proof.
  refine (start_draws_from_pool ["PYTHON"; " "]
            ["  unit tests "; "clean code"] 5 first_rng
            (mkEngine first_rng ["PYTHON"] ["unit tests"; "clean code"] 5 None)
            (mkEngine first_rng ["PYTHON"] ["unit tests"; "clean code"] 5 None)
            "intermediate" _ _ _).
  - reflexivity.
  - constructor.
  - right. reflexivity.
Defined.

(** What every round of an engine satisfies, whatever was called. *)
Lemma perform_round_invariant (e : HangmanEngine) (c : call) :
  (∀ st, _state e = Some st →
     normal_form (answer st) ∧ ∀ l, l ∈ guessed st → one_letter l = true) →
  ∀ st', _state (perform e c).2 = Some st' →
    normal_form (answer st') ∧ ∀ l, l ∈ guessed st' → one_letter l = true.
Proof.
  intros IH st'.
  assert (is_play c → _state (perform e c).2 = Some st' →
          normal_form (answer st')
          ∧ ∀ l, l ∈ guessed st' → one_letter l = true) as Hplay.
  { intros Hc. destruct (_state e) as [st|] eqn:Hst.
    - destruct (play_step e st c Hst Hc) as (st1 & _ & -> & Ha & _ & _ & Hg).
      intros [= <-]. destruct (IH st eq_refl) as [Hn Hl]. rewrite Ha.
      split; [done|]. intros l Hin. destruct (Hg l Hin); auto.
    - destruct c as [d|l|]; [done| |]; simpl.
      + rewrite guess_not_started by done. simpl. by rewrite Hst.
      + rewrite timeout_not_started by done. simpl. by rewrite Hst. }
  destruct c as [d|l|]; [|by apply Hplay..]. simpl.
  unfold start. destruct (negb _); [apply IH|].
  destruct (choice _ _) as [[raw r']|x]; [|apply IH].
  simpl. intros [= <-]. simpl. split; [apply normalize_normal|].
  intros l Hl. by apply not_elem_of_empty in Hl.
Qed.

(** X4. Every round of a constructed engine, after any sequence of
    calls, has an answer of letters A-Z and spaces with no space at
    either end, and a guessed set of single letters A-Z, so of at most
    twenty-six elements. *)
Theorem rounds_are_well_formed
  (words phrases : list string) (n : Z) (rng : Random)
  (e0 e : HangmanEngine) (st : HangmanState) :
  init words phrases n rng = Return e0 →
  reachable e0 e →
  _state e = Some st →
  normal_form (answer st)
  ∧ (∀ l, l ∈ guessed st → one_letter l = true)
  ∧ guessed st ⊆ alphabet
  ∧ (size (guessed st) ≤ 26)%nat.
Proof.
  intros Hinit Hr Hst.
  assert (_state e0 = None) as Hs0.
  { destruct (init_cases words phrases n rng)
      as [[_ H] | [(_ & _ & H) | (_ & _ & H)]];
      rewrite H in Hinit; by simplify_eq. }
  assert (normal_form (answer st)
          ∧ ∀ l, l ∈ guessed st → one_letter l = true) as [Hn Hl].
  { revert st Hst. induction Hr as [|e c Hr IH]; intros st.
    - by rewrite Hs0.
    - by apply perform_round_invariant. }
  assert (guessed st ⊆ alphabet) as Hsub.
  { intros l Hin. by apply one_letter_alphabet, Hl. }
  split; [done|]. split; [done|]. split; [done|].
  pose proof (subseteq_size _ _ Hsub) as Hsize.
  by rewrite alphabet_size in Hsize.
Qed.

Lemma rounds_are_well_formed_witness :
  (size ({["Z"; "A"]} : gset string) ≤ 26)%nat.
Proof.
  refine (proj2 (proj2 (proj2
    (rounds_are_well_formed ["ABC"] ["X Y"] 3 first_rng
       (mkEngine first_rng ["ABC"] ["X Y"] 3 None)
       (run (mkEngine first_rng ["ABC"] ["X Y"] 3 None)
          [Start "basic"; Guess "Z"; Timeout; Guess "A"]).2
       (mkState "ABC" 1 {["Z"; "A"]}) _ _ _)))).
  - reflexivity.
  - apply reachable_run. constructor.
  - vm_compute. reflexivity.
Defined.

(** ** The view and the guesses *)

Lemma masked_even (st : HangmanState) (i : nat) (ch : string) :
  Py.chars (answer st) !! i = Some ch →
  Py.chars (masked st) !! (2 * i)%nat = Some (render st ch).
Proof.
  intros Hi.
  change (masked st)
    with (Py.join " " (map (render st) (Py.chars (answer st)))).
  apply join_space_even; [apply rendered_singles|].
  by rewrite list_lookup_fmap, Hi.
Qed.

Lemma shown_mono (st st' : HangmanState) (ch : string) :
  guessed st ⊆ guessed st' → shown st ch = true → shown st' ch = true.
Proof.
  intros Hsub. rewrite !shown_iff. intros [? | ?]; auto.
Qed.

Lemma is_won_mono (st st' : HangmanState) :
  answer st' = answer st → guessed st ⊆ guessed st' →
  is_won st = true → is_won st' = true.
Proof.
  intros Ha Hsub. rewrite !is_won_iff, Ha. intros H ch Hin Hsp.
  apply Hsub. by apply H.
Qed.

Lemma is_won_ext (st st' : HangmanState) :
  answer st' = answer st → guessed st' = guessed st →
  is_won st' = is_won st.
Proof. destruct st, st'. simpl. by intros -> ->. Qed.

(** X5. Within a round, over any sequence of [guess] and [timeout]
    calls: no call raises, the answer stays, the guessed set only grows,
    the life count never goes up, a position of the masked view that
    shows its letter keeps showing it, and a won round stays won. *)
Theorem round_only_reveals
  (e : HangmanEngine) (st : HangmanState) (cs : list call) :
  _state e = Some st →
  Forall is_play cs →
  ∃ st',
    _state (run e cs).2 = Some st'
    ∧ Forall (λ r, ∃ s, r = Return s) (run e cs).1
    ∧ answer st' = answer st
    ∧ guessed st ⊆ guessed st'
    ∧ lives st' ≤ lives st
    ∧ (∀ i ch, Py.chars (answer st) !! i = Some ch →
         Py.chars (masked st) !! (2 * i)%nat = Some ch →
         Py.chars (masked st') !! (2 * i)%nat = Some ch)
    ∧ (is_won st = true → is_won st' = true).
Proof.
  intros Hst Hcs.
  destruct (plays_grow e st cs Hst Hcs) as (st' & Hs' & Ha & Hg & Hl & _ & Hr).
  exists st'. split; [done|]. split; [done|]. split; [done|].
  split; [done|]. split; [done|]. split; [|by apply is_won_mono].
  intros i ch Hi Hm. rewrite (masked_even st i ch Hi) in Hm.
  rewrite <- Ha in Hi. rewrite (masked_even st' i ch Hi). f_equal.
  injection Hm as Hm. unfold render in *.
  destruct (shown st ch) eqn:E.
  - by rewrite (shown_mono st st' ch Hg E).
  - rewrite <- Hm. by destruct (shown st' MASK_CHAR).
Qed.

Lemma round_only_reveals_witness :
  ∃ st',
    _state (run (mkEngine first_rng ["ABA"] ["X Y"] 3 (Some (mkState "ABA" 3 {["A"]})))
              [Guess "Z"; Timeout; Guess "B"]).2 = Some st'
    ∧ answer st' = "ABA"
    ∧ ({["A"]} : gset string) ⊆ guessed st'
    ∧ lives st' ≤ 3.
Proof.
  destruct (round_only_reveals
              (mkEngine first_rng ["ABA"] ["X Y"] 3 (Some (mkState "ABA" 3 {["A"]})))
              (mkState "ABA" 3 {["A"]}) [Guess "Z"; Timeout; Guess "B"])
    as (st' & Hs & _ & Ha & Hg & Hl & _).
  - reflexivity.
  - repeat constructor.
  - exists st'. auto.
Defined.

(** X6. A guess of a new letter on a live round changes the masked view
    at the positions of that letter in the answer and nowhere else:
    there the view shows the letter; every other position shows what it
    showed before.  When the letter is not in the answer, the view is the
    same string as before and the round is still not won. *)
Theorem new_letter_reveals_its_positions
  (e : HangmanEngine) (st : HangmanState) (letter l : string) :
  _state e = Some st →
  is_won st || is_lost st = false →
  Py.upper (Py.strip letter) = l →
  one_letter l = true →
  l ∉ guessed st →
  ∃ st',
    guess e letter = (Return st', with_state e st')
    ∧ (∀ i ch, Py.chars (answer st) !! i = Some ch →
         Py.chars (masked st') !! (2 * i)%nat
         = if bool_decide (ch = l) then Some l
           else Py.chars (masked st) !! (2 * i)%nat)
    ∧ (l ∉ Py.chars (answer st) →
       masked st' = masked st ∧ is_won st' = false).
Proof.
  intros Hst Ht <- Hl Hn. eexists. split; [by apply guess_fresh|].
  set (l := Py.upper (Py.strip letter)) in *.
  set (n := lives st - _). split.
  - intros i ch Hi.
    rewrite (masked_even (mkState (answer st) n (guessed st ∪ {[l]})) i ch Hi).
    rewrite (masked_even st i ch Hi). unfold render, shown. simpl.
    destruct (decide (ch = l)) as [-> | Hch].
    + rewrite (bool_decide_eq_true_2 (l = l)) by done.
      rewrite (bool_decide_eq_true_2 (l ∈ guessed st ∪ {[l]})).
      * by rewrite orb_true_r.
      * apply elem_of_union_r. by apply elem_of_singleton.
    + rewrite (bool_decide_eq_false_2 (ch = l)) by done.
      rewrite (bool_decide_ext (ch ∈ guessed st ∪ {[l]}) (ch ∈ guessed st));
        [done|].
      rewrite elem_of_union, elem_of_singleton. tauto.
  - intros Hout. split.
    + unfold masked. simpl answer. f_equal. apply map_ext_in.
      intros ch Hch%list_elem_of_In. by rewrite shown_wrong_letter.
    + rewrite is_won_wrong_letter by done.
      by apply orb_false_iff in Ht as [? _].
Qed.

Lemma new_letter_reveals_its_positions_witness :
  ∃ st',
    guess (mkEngine first_rng ["ABA"] ["X Y"] 3 (Some (mkState "ABA" 3 ∅))) "a"
    = (Return st',
       with_state
         (mkEngine first_rng ["ABA"] ["X Y"] 3 (Some (mkState "ABA" 3 ∅))) st')
    ∧ Py.chars (masked st') !! 4%nat = Some "A".
Proof.
  destruct (new_letter_reveals_its_positions
              (mkEngine first_rng ["ABA"] ["X Y"] 3 (Some (mkState "ABA" 3 ∅)))
              (mkState "ABA" 3 ∅) "a" "A")
    as (st' & Hg & Hpos & _).
  - reflexivity.
  - vm_compute. reflexivity.
  - vm_compute. reflexivity.
  - reflexivity.
  - apply not_elem_of_empty.
  - exists st'. split; [exact Hg|]. exact (Hpos 2%nat "A" eq_refl).
Defined.

(** ** Winning and losing *)

Lemma upper_strip_letter (ch : string) :
  one_letter ch = true → Py.upper (Py.strip ch) = ch.
Proof.
  destruct ch as [|c [|? ?]]; [done| |done].
  by destruct c as [[] [] [] [] [] [] [] []].
Qed.

Lemma one_letter_single (ch : string) :
  one_letter ch = true → ∃ c, ch = String c "" ∧ is_AZ c = true.
Proof. destruct ch as [|c [|? ?]]; [done| |done]. eauto. Qed.

(** Guessing a character of the answer on a round with lives left. *)
Lemma guess_answer_char (e : HangmanEngine) (st : HangmanState) (ch : string) :
  _state e = Some st → 0 < lives st →
  ch ∈ Py.chars (answer st) → answer_char ch →
  ∃ st',
    _state (guess e ch).2 = Some st'
    ∧ answer st' = answer st
    ∧ lives st' = lives st
    ∧ guessed st ⊆ guessed st'
    ∧ (ch ≠ " " → ch ∈ guessed st').
Proof.
  intros Hst Hl Hin [-> | Hch].
  - rewrite (guess_ignored e st Hst " ") by (by left).
    exists st. by repeat split.
  - destruct (terminal st) eqn:Ht.
    + rewrite (guess_terminal e st Hst ch Ht). exists st.
      repeat split; try done. intros Hsp.
      unfold terminal, is_lost in Ht.
      replace (lives st <=? 0) with false in Ht
        by (symmetry; apply Z.leb_gt; lia).
      rewrite andb_false_l, orb_false_r in Ht.
      by apply (proj1 (is_won_iff st) Ht).
    + destruct (decide (ch ∈ guessed st)) as [Hg | Hg].
      * rewrite (guess_ignored e st Hst ch)
          by (right; by rewrite upper_strip_letter).
        exists st. by repeat split.
      * pose proof (guess_fresh e st Hst ch Ht) as Hf.
        rewrite upper_strip_letter in Hf by done.
        rewrite (Hf Hch Hg). simpl. eexists. split; [reflexivity|]. simpl.
        apply one_letter_single in Hch as (c & -> & _).
        apply contains_single in Hin. rewrite Hin.
        split; [done|]. split; [lia|]. split; [apply union_subseteq_l|].
        intros _. apply elem_of_union_r. by apply elem_of_singleton.
Qed.

Lemma guess_answer_chars
  (e : HangmanEngine) (st : HangmanState) (L : list string) :
  _state e = Some st → 0 < lives st →
  Forall (λ ch, ch ∈ Py.chars (answer st) ∧ answer_char ch) L →
  ∃ st',
    _state (run e (map Guess L)).2 = Some st'
    ∧ answer st' = answer st
    ∧ lives st' = lives st
    ∧ guessed st ⊆ guessed st'
    ∧ (∀ ch, ch ∈ L → ch ≠ " " → ch ∈ guessed st').
Proof.
  intros Hst Hl HL. revert e st Hst Hl HL.
  induction L as [|ch L IH]; intros e st Hst Hl HL.
  - exists st. simpl. repeat split; try done.
    intros ch Hch. by apply elem_of_nil in Hch.
  - apply Forall_cons in HL as [[Hin Hch] HL].
    destruct (guess_answer_char e st ch Hst Hl Hin Hch)
      as (st1 & Hs1 & Ha1 & Hl1 & Hg1 & Hc1).
    destruct (IH (guess e ch).2 st1 Hs1) as (st' & Hs' & Ha' & Hl' & Hg' & Hc').
    { lia. }
    { by rewrite Ha1. }
    simpl. destruct (guess e ch) as [r e1]. simpl in *.
    destruct (run e1 (map Guess L)) as [rs e2]. simpl in *.
    exists st'. split; [done|]. split; [congruence|]. split; [lia|].
    split; [by etrans|].
    intros ch' [-> | Hin']%elem_of_cons Hsp; [apply Hg'|]; auto.
Qed.

(** X7. On a round with a life left whose answer is made of letters A-Z
    and spaces, guessing the characters of the answer one after the
    other wins the round and costs no life, whatever was guessed
    before. *)
Theorem guessing_the_answer_wins (e : HangmanEngine) (st : HangmanState) :
  _state e = Some st →
  0 < lives st →
  Forall answer_char (Py.chars (answer st)) →
  ∃ st',
    _state (run e (map Guess (Py.chars (answer st)))).2 = Some st'
    ∧ is_won st' = true
    ∧ is_lost st' = false
    ∧ lives st' = lives st
    ∧ answer st' = answer st.
Proof.
  intros Hst Hl Hn.
  destruct (guess_answer_chars e st (Py.chars (answer st)) Hst Hl)
    as (st' & Hs' & Ha & Hl' & _ & Hall).
  { apply Forall_forall. intros ch Hch. split; [done|].
    by eapply (proj1 (Forall_forall _ _)) in Hn. }
  assert (is_won st' = true) as Hw.
  { apply is_won_iff. rewrite Ha. exact Hall. }
  exists st'. split; [done|]. split; [done|].
  split; [|done]. unfold is_lost. rewrite Hw. apply andb_false_r.
Qed.

Lemma guessing_the_answer_wins_witness :
  ∃ st',
    _state (run (mkEngine first_rng ["A"] ["CODE REVIEW"] 1
                   (Some (mkState "CODE REVIEW" 1 {["Z"]})))
              (map Guess (Py.chars "CODE REVIEW"))).2 = Some st'
    ∧ is_won st' = true
    ∧ is_lost st' = false
    ∧ lives st' = 1
    ∧ answer st' = "CODE REVIEW".
Proof.
  refine (guessing_the_answer_wins
            (mkEngine first_rng ["A"] ["CODE REVIEW"] 1
               (Some (mkState "CODE REVIEW" 1 {["Z"]})))
            (mkState "CODE REVIEW" 1 {["Z"]}) _ _ _).
  - reflexivity.
  - simpl. lia.
  - simpl. repeat (constructor; [first [by left | by right]|]). constructor.
Defined.

(** X8. On a round that is not won and whose life count is not
    negative, [k] timeouts in a row leave the answer and the guessed set
    alone and bring the life count to the old count minus [k], or to zero
    when [k] is larger; the round is lost after them exactly when [k] is
    at least the old life count. *)
Theorem timeouts_count_down
  (e : HangmanEngine) (st : HangmanState) (k : nat) :
  _state e = Some st →
  is_won st = false →
  0 ≤ lives st →
  ∃ st',
    _state (run e (replicate k Timeout)).2 = Some st'
    ∧ lives st' = Z.max (lives st - Z.of_nat k) 0
    ∧ answer st' = answer st
    ∧ guessed st' = guessed st
    ∧ (is_lost st' = true ↔ lives st ≤ Z.of_nat k).
Proof.
  intros Hst Hw Hl.
  assert (∃ st', _state (run e (replicate k Timeout)).2 = Some st'
                 ∧ lives st' = Z.max (lives st - Z.of_nat k) 0
                 ∧ answer st' = answer st ∧ guessed st' = guessed st)
    as (st' & Hs' & Hl' & Ha & Hg).
  { revert e st Hst Hw Hl. induction k as [|k IH]; intros e st Hst Hw Hl.
    - exists st. simpl. repeat split; try done. lia.
    - change (replicate (S k) Timeout) with (Timeout :: replicate k Timeout).
      simpl run. simpl perform.
      destruct (terminal st) eqn:Ht.
      + rewrite (timeout_terminal e st Hst Ht).
        destruct (IH e st Hst Hw Hl) as (st' & Hs' & Hl' & Ha & Hg).
        destruct (run e (replicate k Timeout)) as [rs e2]. simpl in *.
        exists st'. repeat split; try done.
        unfold terminal in Ht. rewrite Hw in Ht. simpl in Ht.
        apply is_lost_iff in Ht as [? _]. lia.
      + rewrite (timeout_live e st Hst Ht). apply live_round in Ht.
        destruct (IH (with_state e
                        (mkState (answer st) (Z.max (lives st - 1) 0)
                           (guessed st)))
                    (mkState (answer st) (Z.max (lives st - 1) 0) (guessed st)))
          as (st' & Hs' & Hl' & Ha & Hg); [done | done | simpl; lia |].
        destruct (run _ (replicate k Timeout)) as [rs e2]. simpl in *.
        exists st'. repeat split; try done. lia. }
  exists st'. repeat split; try done.
  - intros [H _]%is_lost_iff. lia.
  - intros H. apply is_lost_iff. split; [lia|].
    by rewrite (is_won_ext st st' Ha Hg).
Qed.

Lemma timeouts_count_down_witness :
  ∃ st',
    _state (run (mkEngine first_rng ["ABC"] ["X Y"] 2 (Some (mkState "ABC" 2 ∅)))
              (replicate 2 Timeout)).2 = Some st'
    ∧ lives st' = Z.max (2 - Z.of_nat 2) 0
    ∧ answer st' = "ABC"
    ∧ guessed st' = ∅
    ∧ (is_lost st' = true ↔ 2 ≤ Z.of_nat 2).
Proof.
  refine (timeouts_count_down
            (mkEngine first_rng ["ABC"] ["X Y"] 2 (Some (mkState "ABC" 2 ∅)))
            (mkState "ABC" 2 ∅) 2 _ _ _).
  - reflexivity.
  - vm_compute. reflexivity.
  - simpl. lia.
Defined.

Lemma contains_letter (l a : string) :
  one_letter l = true → (Py.contains l a = true ↔ l ∈ Py.chars a).
Proof. intros (c & -> & _)%one_letter_single. apply contains_single. Qed.

(** One call keeps a won round with a life in hand. *)
Lemma perform_won_alive (n : Z) (e : HangmanEngine) (c : call) :
  0 < n → _default_lives e = n →
  (∀ st, _state e = Some st →
     0 ≤ lives st ∧ (is_won st = true → 0 < lives st)) →
  ∀ st', _state (perform e c).2 = Some st' →
    0 ≤ lives st' ∧ (is_won st' = true → 0 < lives st').
Proof.
  intros Hn Hd IH st'. destruct c as [d|l|]; simpl.
  - unfold start. destruct (negb _); [apply IH|].
    destruct (choice _ _) as [[raw r']|x]; [|apply IH].
    simpl. intros [= <-]. simpl. lia.
  - destruct (_state e) as [st|] eqn:Hst.
    + specialize (IH st eq_refl).
      destruct (guess_cases e st l Hst) as [-> | (Ht & Hl & _ & ->)]; simpl.
      * rewrite Hst. by intros [= <-].
      * intros [= <-]. simpl.
        pose proof (live_round st Ht) as Hlive.
        destruct (Py.contains _ _) eqn:Hc; [lia|]. split; [lia|].
        rewrite is_won_wrong_letter.
        -- apply orb_false_iff in Ht as [-> _]. done.
        -- intros Hin%contains_letter; [congruence | done].
    + rewrite guess_not_started by done. simpl. by rewrite Hst.
  - destruct (_state e) as [st|] eqn:Hst.
    + specialize (IH st eq_refl).
      destruct (timeout_cases e st Hst) as [-> | (Ht & ->)]; simpl.
      * rewrite Hst. by intros [= <-].
      * intros [= <-]. simpl. split; [lia|].
        change (is_won (mkState (answer st) (Z.max (lives st - 1) 0)
                          (guessed st))) with (is_won st).
        apply orb_false_iff in Ht as [-> _]. done.
    + rewrite timeout_not_started by done. simpl. by rewrite Hst.
Qed.

(** X9. For an engine constructed with a positive default life count,
    after any sequence of calls: a won round has at least one life left,
    and a round with no life left is lost.  The last life is never spent
    by the guess that wins. *)
Theorem last_life_is_never_a_win
  (words phrases : list string) (n : Z) (rng : Random)
  (e0 e : HangmanEngine) (st : HangmanState) :
  init words phrases n rng = Return e0 →
  0 < n →
  reachable e0 e →
  _state e = Some st →
  (is_won st = true → 0 < lives st)
  ∧ (lives st = 0 ↔ is_lost st = true)
  ∧ (0 < lives st ∨ is_lost st = true).
Proof.
  intros Hinit Hn Hr Hst.
  assert (_default_lives e0 = n ∧ _state e0 = None) as [Hd0 Hs0].
  { destruct (init_cases words phrases n rng)
      as [[_ H] | [(_ & _ & H) | (_ & _ & H)]];
      rewrite H in Hinit; by simplify_eq. }
  assert (0 ≤ lives st ∧ (is_won st = true → 0 < lives st)) as [Hl Hw].
  { revert st Hst. induction Hr as [|e c Hr IH]; intros st.
    - by rewrite Hs0.
    - apply (perform_won_alive n e c Hn); [|done].
      apply reachable_config in Hr as (_ & _ & ->). done. }
  split; [done|]. rewrite is_lost_iff.
  destruct (is_won st); [specialize (Hw eq_refl)|].
  - split; [split; [lia | by intros [_ ?]] | by left].
  - split; [split; [intros ->; split; [lia | done] | intros [? _]; lia]|].
    destruct (decide (0 < lives st)); [by left | right].
    split; [lia | done].
Qed.

Lemma last_life_is_never_a_win_witness :
  0 < lives (mkState "AB" 1 {["Z"; "A"; "B"]})
  ∨ is_lost (mkState "AB" 1 {["Z"; "A"; "B"]}) = true.
Proof.
  refine (proj2 (proj2
    (last_life_is_never_a_win ["AB"] ["X Y"] 2 first_rng
       (mkEngine first_rng ["AB"] ["X Y"] 2 None)
       (run (mkEngine first_rng ["AB"] ["X Y"] 2 None)
          [Start "basic"; Guess "Z"; Guess "A"; Guess "B"]).2
       (mkState "AB" 1 {["Z"; "A"; "B"]}) _ _ _ _))).
  - reflexivity.
  - lia.
  - apply reachable_run. constructor.
  - vm_compute. reflexivity.
Defined.

(** ** What a round costs *)

Lemma wrong_fresh_wrong (st : HangmanState) (n : Z) (l : string) :
  l ∉ guessed st → l ∉ Py.chars (answer st) →
  size (wrong (mkState (answer st) n (guessed st ∪ {[l]})))
  = S (size (wrong st)).
Proof.
  intros Hg Ha. unfold wrong. simpl.
  assert (filter (λ l0, l0 ∉ Py.chars (answer st)) (guessed st ∪ {[l]})
          = filter (λ l0, l0 ∉ Py.chars (answer st)) (guessed st) ∪ {[l]})
    as ->.
  { apply set_eq. intros x.
    rewrite elem_of_union, !elem_of_filter, elem_of_union, elem_of_singleton.
    split; [tauto|]. intros [? | ->]; tauto. }
  rewrite size_union.
  - rewrite size_singleton. lia.
  - apply disjoint_singleton_r. intros [_ ?]%elem_of_filter. done.
Qed.

Lemma wrong_fresh_right (st : HangmanState) (n : Z) (l : string) :
  l ∈ Py.chars (answer st) →
  wrong (mkState (answer st) n (guessed st ∪ {[l]})) = wrong st.
Proof.
  intros Ha. unfold wrong. simpl. apply set_eq. intros x.
  rewrite !elem_of_filter, elem_of_union, elem_of_singleton.
  split; [|tauto]. intros [Hx [? | ->]]; [done|]. by destruct Hx.
Qed.

(** X10. Over any sequence of guesses on a started round, the lives
    spent are as many as the letters that have joined the guessed set
    without being in the answer: a guess costs a life exactly when it
    records a new wrong letter. *)
Theorem guesses_cost_wrong_letters
  (e : HangmanEngine) (st : HangmanState) (cs : list call) :
  _state e = Some st →
  Forall is_guess cs →
  ∃ st',
    _state (run e cs).2 = Some st'
    ∧ answer st' = answer st
    ∧ lives st - lives st'
      = Z.of_nat (size (wrong st')) - Z.of_nat (size (wrong st)).
Proof.
  intros Hst Hcs. revert e st Hst.
  induction Hcs as [|c cs Hc _ IH]; intros e st Hst.
  - exists st. simpl. repeat split; try done. lia.
  - destruct c as [d|l|]; [done| |done]. simpl.
    assert (∃ st1, _state (guess e l).2 = Some st1
                   ∧ answer st1 = answer st
                   ∧ lives st - lives st1
                     = Z.of_nat (size (wrong st1)) - Z.of_nat (size (wrong st)))
      as (st1 & Hs1 & Ha1 & Hl1).
    { destruct (guess_cases e st l Hst) as [-> | (Ht & Hl & Hn & ->)]; simpl.
      - exists st. repeat split; try done. lia.
      - eexists. split; [reflexivity|]. simpl. split; [done|].
        destruct (Py.contains _ _) eqn:Hc'.
        + apply contains_letter in Hc'; [|done].
          rewrite wrong_fresh_right by done. lia.
        + rewrite wrong_fresh_wrong; [lia | done |].
          intros Hin%contains_letter; [congruence | done]. }
    destruct (IH _ st1 Hs1) as (st' & Hs' & Ha' & Hl').
    destruct (guess e l) as [r e1]. simpl in *.
    destruct (run e1 cs) as [rs e2]. simpl in *.
    exists st'. split; [done|]. split; [congruence|].
    unfold wrong in *. rewrite Ha', Ha1 in *. lia.
Qed.

Lemma guesses_cost_wrong_letters_witness :
  ∃ st',
    _state (run (mkEngine first_rng ["ABC"] ["X Y"] 6 (Some (mkState "ABC" 6 ∅)))
              [Guess "Z"; Guess "a"; Guess "z"; Guess "?"; Guess "Q"]).2
    = Some st'
    ∧ answer st' = "ABC"
    ∧ 6 - lives st'
      = Z.of_nat (size (wrong st')) - Z.of_nat (size (wrong (mkState "ABC" 6 ∅))).
Proof.
  refine (guesses_cost_wrong_letters
            (mkEngine first_rng ["ABC"] ["X Y"] 6 (Some (mkState "ABC" 6 ∅)))
            (mkState "ABC" 6 ∅)
            [Guess "Z"; Guess "a"; Guess "z"; Guess "?"; Guess "Q"] _ _).
  - reflexivity.
  - repeat constructor.
Defined.

(** ** What the engine makes of its input *)

(** X11. A guess depends on its input only through the trimmed,
    upper-cased text: two inputs that agree after trimming and
    upper-casing give the same call, and an input can be replaced by its
    trimmed, upper-cased form. *)
Theorem guess_ignores_case_and_blanks (e : HangmanEngine) (l1 l2 : string) :
  (Py.upper (Py.strip l1) = Py.upper (Py.strip l2) → guess e l1 = guess e l2)
  ∧ guess e (Py.upper (Py.strip l1)) = guess e l1.
Proof.
  assert (∀ a b, Py.upper (Py.strip a) = Py.upper (Py.strip b) →
                 guess e a = guess e b) as H.
  { intros a b Hab. unfold guess. by rewrite Hab. }
  split; [apply H|]. apply H.
  by rewrite strip_upper, upper_idem, strip_idem.
Qed.

Lemma guess_ignores_case_and_blanks_witness :
  guess (mkEngine first_rng ["ABC"] ["X Y"] 3 (Some (mkState "ABC" 3 ∅))) " a "
  = guess (mkEngine first_rng ["ABC"] ["X Y"] 3 (Some (mkState "ABC" 3 ∅))) "A".
Proof.
  refine (proj1 (guess_ignores_case_and_blanks
                   (mkEngine first_rng ["ABC"] ["X Y"] 3
                      (Some (mkState "ABC" 3 ∅))) " a " "A") _).
  vm_compute. reflexivity.
Defined.

(** ** The front ends *)

Lemma letter_upper_is_AZ (c : ascii) :
  is_letter c = true →
  one_letter (Py.upper (Py.strip (String c ""))) = true
  ∧ Py.strip (String c "") = String c "".
Proof. by destruct c as [[] [] [] [] [] [] [] []]. Qed.

Lemma isalpha_single (c : ascii) : Py.isalpha (String c "") = is_letter c.
Proof. unfold Py.isalpha, is_letter. simpl. by rewrite andb_true_r. Qed.

(** X12. Of ASCII text, the entry field of the GUI lets through the
    empty text and single letters, of either case, and nothing else; what
    [submit_guess] then passes to the engine from a text the field let
    through is, the empty text apart, a valid guess of that letter in
    upper case; and submitting the empty field changes nothing. *)
Theorem entry_field_passes_valid_guesses (text : string) :
  Py.isascii text = true →
  (_entry_validator text = true
   ↔ text = "" ∨ ∃ c, text = String c "" ∧ is_letter c = true)
  ∧ (_entry_validator text = true → text ≠ "" →
     one_letter (Py.upper (Py.first1 (Py.strip text))) = true
     ∧ Py.upper (Py.first1 (Py.strip text)) = Py.upper text
     ∧ ∀ e, submit_guess e text = guess e text)
  ∧ (∀ e st, _state e = Some st → submit_guess e "" = (Return st, e)).
Proof.
  intros _.
  assert (_entry_validator text = true
          ↔ text = "" ∨ ∃ c, text = String c "" ∧ is_letter c = true) as Hv.
  { destruct text as [|c [|d t]].
    - split; [by left | done].
    - unfold _entry_validator. simpl. rewrite isalpha_single. split.
      + intros H. right. eauto.
      + by intros [? | (c' & [= <-] & ?)].
    - unfold _entry_validator, Py.len. simpl Strings.String.length.
      replace (1 <? Z.of_nat (S (S (Strings.String.length t)))) with true
        by (symmetry; apply Z.ltb_lt; lia).
      split; [done|]. by intros [? | (c' & ? & ?)]. }
  split; [exact Hv|]. split.
  - intros Hok Hne. apply Hv in Hok as [-> | (c & -> & Hc)]; [done|].
    destruct (letter_upper_is_AZ c Hc) as [Hone Hs].
    rewrite Hs. simpl Py.first1.
    assert (Py.upper (String c "") = Py.upper (Py.strip (String c ""))) as Hu
      by (by rewrite Hs).
    split; [by rewrite Hu|]. split; [done|].
    intros e. unfold submit_guess. rewrite Hs. simpl Py.first1. cbv zeta.
    unfold guess. by rewrite strip_upper, upper_idem, Hs.
  - intros e st Hst. unfold submit_guess. cbv zeta.
    apply guess_ignored; [done|]. by left.
Qed.

Lemma entry_field_passes_valid_guesses_witness :
  one_letter (Py.upper (Py.first1 (Py.strip "q"))) = true
  ∧ Py.upper (Py.first1 (Py.strip "q")) = Py.upper "q"
  ∧ ∀ e, submit_guess e "q" = guess e "q".
Proof.
  refine (proj1 (proj2 (entry_field_passes_valid_guesses "q" _)) _ _).
  - reflexivity.
  - vm_compute. reflexivity.
  - discriminate.
Defined.

Lemma cli_picks_a_difficulty (line : string) :
  cli_difficulty line = "basic" ∨ cli_difficulty line = "intermediate".
Proof.
  unfold cli_difficulty, Py.or_else. cbv zeta.
  destruct (Py.lower (Py.strip line)) as [|c s]; [by left|].
  simpl Py.truthy. cbv iota. case_bool_decide as Hin; simpl; [|by left].
  by apply difficulties_iff in Hin.
Qed.

(** X13. Whatever line the CLI reads for the difficulty, the difficulty
    it starts with is basic or intermediate: intermediate exactly when
    the line, trimmed and lower-cased, is that word, and basic for every
    other line, the empty one included.  So the [start] of the CLI, on an
    engine with both lists in place, returns a round and does not
    raise. *)
Theorem cli_difficulty_is_valid (line : string) :
  (cli_difficulty line = "basic" ∨ cli_difficulty line = "intermediate")
  ∧ (cli_difficulty line = "intermediate"
     ↔ Py.lower (Py.strip line) = "intermediate")
  ∧ (∀ e, _words e ≠ [] → _phrases e ≠ [] →
       ∃ st e', start e (cli_difficulty line) = (Return st, e')
                ∧ _state e' = Some st).
Proof.
  assert ((cli_difficulty line = "basic" ∨ cli_difficulty line = "intermediate")
          ∧ (cli_difficulty line = "intermediate"
             ↔ Py.lower (Py.strip line) = "intermediate")) as [Hd Hi].
  { unfold cli_difficulty, Py.or_else. cbv zeta.
    destruct (Py.lower (Py.strip line)) as [|c s] eqn:E.
    - simpl. split; [by left | done].
    - simpl Py.truthy. cbv iota. case_bool_decide as Hin; simpl.
      + apply difficulties_iff in Hin as [-> | ->].
        * split; [by left | done].
        * split; [by right | done].
      + split; [by left|]. split; [done|]. intros Heq. destruct Hin.
        rewrite Heq. apply difficulties_iff. by right. }
  split; [done|]. split; [done|]. intros e Hw Hp.
  destruct (start_valid e (cli_difficulty line)) as (raw & r' & _ & _ & Hs);
    [by apply difficulties_iff | done | done |].
  cbv zeta in Hs. rewrite Hs. eauto.
Qed.

Lemma cli_difficulty_is_valid_witness :
  cli_difficulty "  InterMediate " = "intermediate".
Proof.
  refine (proj2 (proj1 (proj2 (cli_difficulty_is_valid "  InterMediate "))) _).
  vm_compute. reflexivity.
Defined.

Lemma cli_turn_line (e : HangmanEngine) (line : string) :
  cli_turn e (Some line)
  = match Py.strip line with
    | EmptyString => (state e, e)
    | String c _ =>
        if is_letter c then guess e (String c "") else (state e, e)
    end.
Proof.
  unfold cli_turn. simpl. cbv zeta. rewrite strip_idem.
  destruct (Py.strip line) as [|c t]; [done|].
  rewrite isalpha_single. by destruct (is_letter c).
Qed.



(** ** The CLI on the shipped lists *)

Lemma shipped_lists_clean :
  clean_pool WORDS = WORDS ∧ clean_pool PHRASES = PHRASES.
Proof. split; vm_compute; reflexivity. Qed.

Lemma shipped_entries_normal :
  Forall (λ w, _normalize_answer w = w ∧ w ≠ "") (WORDS ++ PHRASES).
Proof.
  apply Forall_forall. intros w Hw.
  assert (bool_decide (_normalize_answer w = w) && negb (bool_decide (w = ""))
          = true) as H.
  { revert w Hw. apply Forall_forall, Forall_fold_right.
    vm_compute. repeat split. }
  apply andb_true_iff in H as [H1 H2].
  apply bool_decide_eq_true in H1. apply negb_true_iff in H2.
  by apply bool_decide_eq_false in H2.
Qed.

Lemma shipped_engine (rng : Random) :
  init WORDS PHRASES 6 rng = Return (mkEngine rng WORDS PHRASES 6 None).
Proof.
  destruct shipped_lists_clean as [Hw Hp].
  destruct (init_cases WORDS PHRASES 6 rng)
    as [[H _] | [(_ & H & _) | (_ & _ & H)]].
  - by rewrite Hw in H.
  - by rewrite Hp in H.
  - by rewrite Hw, Hp in H.
Qed.

(** A round on the shipped lists starts undecided, on an entry of the
    list for its difficulty. *)
Lemma shipped_start (e : HangmanEngine) (d : string) :
  _words e = WORDS → _phrases e = PHRASES → _default_lives e = 6 →
  d ∈ difficulties →
  ∃ st e',
    start e d = (Return st, e')
    ∧ _state e' = Some st
    ∧ _words e' = WORDS ∧ _phrases e' = PHRASES ∧ _default_lives e' = 6
    ∧ answer st ∈ (if bool_decide (d = "basic") then WORDS else PHRASES)
    ∧ lives st = 6
    ∧ guessed st = ∅
    ∧ is_won st = false.
Proof.
  intros Hw Hp Hl Hd.
  destruct (start_valid e d Hd) as (raw & r' & Hin & _ & Hs).
  { rewrite Hw. done. }
  { rewrite Hp. done. }
  cbv zeta in Hs. rewrite Hw, Hp, Hl in *.
  assert (_normalize_answer raw = raw ∧ raw ≠ "") as [Hn Hne].
  { eapply (proj1 (Forall_forall _ _) shipped_entries_normal).
    apply elem_of_app. by case_bool_decide; [left | right]. }
  eexists _, _. split; [exact Hs|]. simpl. rewrite Hn.
  repeat split; try done.
  destruct (is_won _) eqn:E; [|done].
  rewrite <- Hn in E. apply won_fresh in E. congruence.
Qed.

Lemma cli_turn_started (e : HangmanEngine) (st : HangmanState)
  (t : option string) :
  _state e = Some st →
  ∃ st1,
    cli_turn e t = (Return st1, (cli_turn e t).2)
    ∧ _state (cli_turn e t).2 = Some st1
    ∧ answer st1 = answer st
    ∧ lives st1 ≤ lives st
    ∧ (0 ≤ lives st → 0 ≤ lives st1).
Proof.
  intros Hst.
  assert (state e = Return st) as Hse by (unfold state; by rewrite Hst).
  assert (∀ c, is_play c →
    ∃ st1, perform e c = (Return st1, (perform e c).2)
           ∧ _state (perform e c).2 = Some st1
           ∧ answer st1 = answer st ∧ lives st1 ≤ lives st
           ∧ (0 ≤ lives st → 0 ≤ lives st1)) as Hplay.
  { intros c Hc.
    destruct (play_step e st c Hst Hc) as (st1 & Hp & Hs1 & Ha & _ & Hl & _).
    exists st1. repeat split; try done.
    - destruct Hl as [-> | [_ ->]]; lia.
    - destruct Hl as [-> | [Ht ->]]; [done|]. apply live_round in Ht. lia. }
  destruct t as [line|]; [|exact (Hplay Timeout I)].
  rewrite cli_turn_line.
  destruct (Py.strip line) as [|c s].
  - rewrite Hse. exists st. simpl. repeat split; try done; lia.
  - destruct (is_letter c); [exact (Hplay (Guess (String c "")) I)|].
    rewrite Hse. exists st. simpl. repeat split; try done; lia.
Qed.

Lemma cli_loop_eq (e : HangmanEngine) (st : HangmanState)
  (typed : list (option string)) :
  _state e = Some st →
  cli_loop e typed
  = if is_won st then (CliWon, e)
    else if is_lost st then (CliLost, e)
    else match typed with
         | [] => (CliWaiting, e)
         | t :: ts =>
             match cli_turn e t with
             | (Raise x, e') => (CliRaised x, e')
             | (Return _, e') => cli_loop e' ts
             end
         end.
Proof. intros Hst. destruct typed; simpl; unfold state; by rewrite Hst. Qed.

Lemma cli_loop_started (e : HangmanEngine) (st : HangmanState)
  (typed : list (option string)) :
  _state e = Some st →
  ∃ st',
    _state (cli_loop e typed).2 = Some st'
    ∧ answer st' = answer st
    ∧ lives st' ≤ lives st
    ∧ (0 ≤ lives st → 0 ≤ lives st')
    ∧ match (cli_loop e typed).1 with
      | CliWon => is_won st' = true
      | CliLost => is_lost st' = true
      | CliWaiting => is_won st' = false ∧ is_lost st' = false
      | CliRaised _ => False
      end.
Proof.
  revert e st. induction typed as [|t ts IH]; intros e st Hst;
    rewrite (cli_loop_eq e st _ Hst);
    (destruct (is_won st) eqn:Hw; [|destruct (is_lost st) eqn:Hl]);
    try (exists st; simpl; repeat split; try done; lia).
  destruct (cli_turn_started e st t Hst) as (st1 & Hp & Hs1 & Ha1 & Hl1 & Hn1).
  rewrite Hp.
  destruct (IH _ st1 Hs1) as (st' & Hs' & Ha' & Hl' & Hn' & Hm).
  exists st'. split; [done|]. split; [congruence|]. split; [lia|].
  split; [auto | done].
Qed.

(** X15. A session of the CLI on the shipped lists never raises, for any
    random source, any line given for the difficulty and any lines typed
    afterwards: the engine is built, the round starts, and when the
    input is used up the session has ended won on a won round, ended
    lost on a lost round, or waits for input on a round that is neither,
    with a life count from zero to six and an entry of the shipped lists
    as the answer. *)
Theorem cli_session_never_raises
  (rng : Random) (line : string) (typed : list (option string)) :
  ∃ r e st,
    run_cli rng line typed = Some (r, e)
    ∧ _state e = Some st
    ∧ answer st ∈ WORDS ++ PHRASES
    ∧ 0 ≤ lives st ≤ 6
    ∧ ((r = CliWon ∧ is_won st = true)
       ∨ (r = CliLost ∧ is_lost st = true)
       ∨ (r = CliWaiting ∧ is_won st = false ∧ is_lost st = false)).
Proof.
  unfold run_cli. rewrite shipped_engine.
  destruct (shipped_start (mkEngine rng WORDS PHRASES 6 None)
              (cli_difficulty line))
    as (st0 & e1 & Hs & Hst0 & _ & _ & _ & Ha0 & Hl0 & _ & _);
    [done..| |].
  { apply difficulties_iff, cli_picks_a_difficulty. }
  rewrite Hs.
  destruct (cli_loop_started e1 st0 typed Hst0)
    as (st' & Hs' & Ha' & Hl' & Hn' & Hm).
  destruct (cli_loop e1 typed) as [r e2] eqn:E. cbn [fst snd] in *.
  exists r, e2, st'. split; [done|]. split; [done|]. split.
  { rewrite Ha'. apply elem_of_app. by case_bool_decide; [left | right]. }
  split; [lia|].
  destruct r; [by left | by right; left | by right; right | done].
Qed.

Lemma cli_missed_deadlines (e : HangmanEngine) (st : HangmanState)
  (k : nat) (rest : list (option string)) :
  _state e = Some st → is_won st = false → lives st = Z.of_nat k →
  ∃ e' st',
    cli_loop e (replicate k None ++ rest) = (CliLost, e')
    ∧ _state e' = Some st'
    ∧ lives st' = 0
    ∧ answer st' = answer st
    ∧ guessed st' = guessed st.
Proof.
  revert e st. induction k as [|k IH]; intros e st Hst Hw Hl;
    rewrite (cli_loop_eq e st _ Hst), Hw.
  - assert (is_lost st = true) as -> by (apply is_lost_iff; split; [lia|done]).
    exists e, st. repeat split; try done; lia.
  - assert (is_lost st = false) as Hlost.
    { unfold is_lost. replace (lives st <=? 0) with false; [done|].
      symmetry. apply Z.leb_gt. lia. }
    rewrite Hlost. change (replicate (S k) None ++ rest)
      with (None :: (replicate k None ++ rest)).
    cbv iota. change (cli_turn e None) with (timeout e).
    rewrite (timeout_live e st Hst)
      by (unfold terminal; by rewrite Hw, Hlost).
    destruct (IH (with_state e
                    (mkState (answer st) (Z.max (lives st - 1) 0) (guessed st)))
                (mkState (answer st) (Z.max (lives st - 1) 0) (guessed st)))
      as (e' & st' & Hloop & Hs' & Hl' & Ha' & Hg'); [done | done | simpl; lia |].
    exists e', st'. done.
Qed.

(** X16. In a session of the CLI on the shipped lists, six deadlines
    missed in a row from the start lose the game, whatever the random
    source and the difficulty, and whatever is typed afterwards: the
    session ends lost with no life left and no letter guessed. *)
Theorem cli_six_missed_deadlines_lose
  (rng : Random) (line : string) (rest : list (option string)) :
  ∃ e st,
    run_cli rng line (replicate 6 None ++ rest) = Some (CliLost, e)
    ∧ _state e = Some st
    ∧ lives st = 0
    ∧ guessed st = ∅
    ∧ is_lost st = true.
Proof.
  unfold run_cli. rewrite shipped_engine.
  destruct (shipped_start (mkEngine rng WORDS PHRASES 6 None)
              (cli_difficulty line))
    as (st0 & e1 & Hs & Hst0 & _ & _ & _ & _ & Hl0 & Hg0 & Hw0);
    [done..| |].
  { apply difficulties_iff, cli_picks_a_difficulty. }
  rewrite Hs.
  destruct (cli_missed_deadlines e1 st0 6 rest Hst0 Hw0 Hl0)
    as (e' & st' & Hloop & Hs' & Hl' & Ha' & Hg').
  rewrite Hloop. exists e', st'. split; [done|]. split; [done|].
  split; [done|]. split; [congruence|].
  apply is_lost_iff. split; [lia|].
  by rewrite (is_won_ext st0 st' Ha' Hg').
Qed.

Lemma shipped_phrases_spaced :
  Forall (λ p, " " ∈ Py.chars p) PHRASES
  ∧ Forall (λ w, " " ∉ Py.chars w) WORDS.
Proof.
  split; apply Forall_forall; intros w Hw.
  - apply (contains_single " "%char). revert w Hw.
    apply Forall_forall, Forall_fold_right. vm_compute. repeat split.
  - intros Hin%(contains_single " "%char). revert w Hw Hin.
    apply (proj1 (Forall_forall (λ w, Py.contains " " w = true → False) WORDS)).
    apply Forall_fold_right. vm_compute. repeat split; discriminate.
Qed.

(** X17. The engine the GUI and the CLI build, on the shipped lists with
    six lives, is constructed without an error; and after any sequence
    of calls every round it starts has an entry of the list for its
    difficulty as the answer, unchanged by normalisation, with six
    lives and nothing guessed, and is neither won nor lost.  A phrase
    round has a space in its answer, a word round has none. *)
Theorem shipped_rounds_start_undecided
  (rng : Random) (e : HangmanEngine) (d : string) :
  reachable (mkEngine rng WORDS PHRASES 6 None) e →
  d = "basic" ∨ d = "intermediate" →
  init WORDS PHRASES 6 rng = Return (mkEngine rng WORDS PHRASES 6 None)
  ∧ ∃ st e',
      start e d = (Return st, e')
      ∧ _state e' = Some st
      ∧ answer st ∈ (if bool_decide (d = "basic") then WORDS else PHRASES)
      ∧ _normalize_answer (answer st) = answer st
      ∧ lives st = 6
      ∧ guessed st = ∅
      ∧ is_won st = false
      ∧ is_lost st = false
      ∧ (" " ∈ Py.chars (answer st) ↔ d = "intermediate").
Proof.
  intros Hr Hd. split; [apply shipped_engine|].
  apply reachable_config in Hr as (Hw & Hp & Hl). simpl in Hw, Hp, Hl.
  destruct (shipped_start e d Hw Hp Hl)
    as (st & e' & Hs & Hst & _ & _ & _ & Ha & Hl' & Hg & Hwon);
    [by apply difficulties_iff|].
  exists st, e'. split; [done|]. split; [done|]. split; [done|].
  assert (_normalize_answer (answer st) = answer st) as Hn.
  { eapply (proj1 (Forall_forall _ _) shipped_entries_normal).
    apply elem_of_app. by case_bool_decide; [left | right]. }
  split; [done|]. split; [done|]. split; [done|]. split; [done|].
  split.
  { unfold is_lost. rewrite Hl'. done. }
  destruct shipped_phrases_spaced as [Hps Hws].
  case_bool_decide as Hb.
  - split.
    + intros Hin. by eapply (proj1 (Forall_forall _ _) Hws) in Hin.
    + intros ->. done.
  - split.
    + intros _. by destruct Hd.
    + intros _. by eapply (proj1 (Forall_forall _ _) Hps).
Qed.

Lemma shipped_rounds_start_undecided_witness :
  ∃ st e',
    start (mkEngine first_rng WORDS PHRASES 6 None) "intermediate"
    = (Return st, e')
    ∧ answer st ∈ PHRASES
    ∧ lives st = 6.
Proof.
  destruct (shipped_rounds_start_undecided first_rng
              (mkEngine first_rng WORDS PHRASES 6 None) "intermediate")
    as (_ & st & e' & Hs & _ & Ha & _ & Hl & _).
  - constructor.
  - right. reflexivity.
  - exists st, e'. auto.
Defined.
